(** * Compass: dispatch and collection layer of [mflux/compass/main.py]

    A shallow embedding of [parseArgs], [entry], [_parallel_map_fun] and
    [collectCompassResults].  Python code that raises is modelled in a
    state-and-exception monad over the process state and the file system;
    the pandas tables the collector merges are modelled as labelled
    two-dimensional arrays. *)

From Stdlib Require Import QArith Ascii String.
From stdpp Require Import gmap strings list pretty.

Open Scope Z_scope.
Open Scope nat_scope.
Open Scope string_scope.
Open Scope list_scope.

(** ** Python exceptions and results *)

Inductive exc : Type :=
  | FileNotFoundError
  | IsADirectoryError
  | FileExistsError
  | ParserError
  | IndexError
  | ValueError
  | InvalidIndexError
  | CalledProcessError
  | SystemExit (code : Z)
  | OtherError (name : string).

Inductive result (A : Type) : Type :=
  | Ok (a : A)
  | Raise (e : exc).
Arguments Ok {A} a.
Arguments Raise {A} e.

Definition is_ok {A} (r : result A) : bool :=
  match r with Ok _ => true | Raise _ => false end.

(** ** pandas tables *)

Module Pandas.

(** A cell is a printed value; [None] is the missing value (NaN). *)
Definition cell : Type := option string.

(** A [DataFrame] has row labels ([index]), column labels ([columns]) and a
    value at every (row position, column position). *)
Record DataFrame : Type := mkDataFrame {
  index : list string;
  columns : list string;
  iat : nat -> nat -> cell
}.

(** [pd.DataFrame(columns=cols)]: no rows, the given columns. *)
Definition empty_frame (cols : list string) : DataFrame :=
  mkDataFrame [] cols (fun _ _ => None).

(** Position of the first row carrying a label ([Index.get_loc]). *)
Fixpoint get_loc (l : string) (idx : list string) : option nat :=
  match idx with
  | [] => None
  | x :: xs => if decide (x = l) then Some 0 else S <$> get_loc l xs
  end.

(** Value of a frame at a row label and a column position; a label the
    frame does not have reads as missing, which is what reindexing a frame
    to a larger index gives. *)
Definition reindexed (f : DataFrame) (l : string) (c : nat) : cell :=
  match get_loc l (index f) with
  | Some r => iat f r c
  | None => None
  end.

(** Union of the row indexes, in order of first appearance. *)
Fixpoint union_indexes (idxs : list (list string)) : list string :=
  match idxs with
  | [] => []
  | l :: rest => l ++ filter (fun x => x ∉ l) (union_indexes rest)
  end.

(** Column [c] of the frames laid side by side belongs to the first frame
    whose columns reach it; [get] reads that frame. *)
Fixpoint pick (get : DataFrame -> nat -> cell) (frames : list DataFrame)
    (c : nat) : cell :=
  match frames with
  | [] => None
  | f :: rest =>
      if decide (c < length (columns f)) then get f c
      else pick get rest (c - length (columns f))
  end.

(** Outer join on the row labels. *)
Definition outer_join (frames : list DataFrame) : DataFrame :=
  let idx := union_indexes (index <$> frames) in
  mkDataFrame idx (frames ≫= columns)
    (fun r c =>
       match idx !! r with
       | Some l => pick (fun f => reindexed f l) frames c
       | None => None
       end).

(** Frames that share one and the same index are laid side by side without
    any realignment. *)
Definition side_by_side (idx : list string) (frames : list DataFrame)
    : DataFrame :=
  mkDataFrame idx (frames ≫= columns)
    (fun r c => pick (fun f => iat f r) frames c).

Definition unique_index (f : DataFrame) : bool :=
  bool_decide (NoDup (index f)).

(** [pd.concat(frames, axis=1)]: no frame at all is a [ValueError]; frames
    with unique row labels are outer-joined; frames with repeated row
    labels are accepted only when all indexes are identical. *)
Definition concat_axis1 (frames : list DataFrame) : result DataFrame :=
  match frames with
  | [] => Raise ValueError
  | f :: rest =>
      if forallb unique_index frames then Ok (outer_join frames)
      else if forallb (fun g => bool_decide (index g = index f)) rest
      then Ok (side_by_side (index f) frames)
      else Raise InvalidIndexError
  end.


End Pandas.
Import Pandas.

(** ** Process state, file system and the execution monad *)

(** Where a standard stream of the process points. *)
Inductive stream : Type :=
  | Console
  | ToFile (path : string).

(** What a Python process of this program can see and change: the files and
    directories of the file system, its two standard streams and the flags
    of the [globals] module. *)
Record World : Type := mkWorld {
  files : gmap string string;
  dirs : gset string;
  sys_stdout : stream;
  sys_stderr : stream;
  TEST_MODE : bool;
  SYMMETRIC_KERNEL : bool;
  PERPLEXITY : Z
}.

Definition set_files (fs : gmap string string) (w : World) : World :=
  mkWorld fs (dirs w) (sys_stdout w) (sys_stderr w)
          (TEST_MODE w) (SYMMETRIC_KERNEL w) (PERPLEXITY w).
Definition set_dirs (ds : gset string) (w : World) : World :=
  mkWorld (files w) ds (sys_stdout w) (sys_stderr w)
          (TEST_MODE w) (SYMMETRIC_KERNEL w) (PERPLEXITY w).
Definition set_stdout (o : stream) (w : World) : World :=
  mkWorld (files w) (dirs w) o (sys_stderr w)
          (TEST_MODE w) (SYMMETRIC_KERNEL w) (PERPLEXITY w).
Definition set_stderr (e : stream) (w : World) : World :=
  mkWorld (files w) (dirs w) (sys_stdout w) e
          (TEST_MODE w) (SYMMETRIC_KERNEL w) (PERPLEXITY w).
Definition set_flags (t k : bool) (p : Z) (w : World) : World :=
  mkWorld (files w) (dirs w) (sys_stdout w) (sys_stderr w) t k p.

(** Keyword arguments of a call of [singleSampleCompass].  An optional
    command-line value is an [option]: Python's [None] is [None], and the
    Python string ['None'] is [Some "None"]. *)
Record SolveArgs : Type := mkSolveArgs {
  sa_data : string;
  sa_model : string;
  sa_media : option string;
  sa_directory : string;
  sa_lambda : Q;
  sa_sample_index : Z
}.

(** Keyword arguments of a call of [submitCompassTorque]. *)
Record TorqueArgs : Type := mkTorqueArgs {
  ta_data : string;
  ta_model : string;
  ta_media : option string;
  ta_temp_dir : string;
  ta_output_dir : string;
  ta_lambda : Q;
  ta_queue : option string
}.

(** Calls that leave this module, in the order they are made.  A call of the
    solver or of the logger set-up is logged with the state of the world it
    starts in. *)
Inductive event : Type :=
  | EvSolve (a : SolveArgs) (at_call : World)
  | EvTorque (a : TorqueArgs)
  | EvInitLogger (directory : string) (at_call : World)
  | EvPool (processes : Z)
  | EvProgress.

Record State : Type := mkState {
  world : World;
  trace : list event
}.

Definition M (A : Type) : Type := State -> result A * State.

Definition ret {A} (a : A) : M A := fun s => (Ok a, s).
Definition raise {A} (e : exc) : M A := fun s => (Raise e, s).
Definition bind {A B} (m : M A) (k : A -> M B) : M B :=
  fun s =>
    match m s with
    | (Ok a, s') => k a s'
    | (Raise e, s') => (Raise e, s')
    end.

Notation "x <- m ;; k" := (bind m (fun x => k))
  (at level 100, m at next level, right associativity).
Notation "m ;;; k" := (bind m (fun _ => k))
  (at level 100, right associativity).

(** [try: m  except: h] with a bare [except], which catches everything. *)
Definition try_except {A} (m : M A) (h : M A) : M A :=
  fun s =>
    match m s with
    | (Ok a, s') => (Ok a, s')
    | (Raise _, s') => h s'
    end.

(** [except E: h] for one exception class: anything else propagates. *)
Definition try_except_only {A} (caught : exc -> bool) (m : M A) (h : M A)
    : M A :=
  fun s =>
    match m s with
    | (Ok a, s') => (Ok a, s')
    | (Raise e, s') => if caught e then h s' else (Raise e, s')
    end.

Definition lift {A} (r : result A) : M A := fun s => (r, s).
Definition get_world : M World := fun s => (Ok (world s), s).
Definition modify_world (f : World -> World) : M unit :=
  fun s => (Ok tt, mkState (f (world s)) (trace s)).
Definition emit (e : event) : M unit :=
  fun s => (Ok tt, mkState (world s) (trace s ++ [e])).

(** [for x in l: acc = body(x, acc)] *)
Fixpoint for_each {A S} (l : list A) (body : A -> S -> M S) (acc : S)
    : M S :=
  match l with
  | [] => ret acc
  | x :: l' => acc' <- body x acc ;; for_each l' body acc'
  end.

(** ** Paths *)

Definition starts_with_slash (s : string) : bool :=
  match s with
  | String c _ => bool_decide (c = "/"%char)
  | EmptyString => false
  end.

Fixpoint ends_with_slash (s : string) : bool :=
  match s with
  | EmptyString => false
  | String c EmptyString => bool_decide (c = "/"%char)
  | String _ s' => ends_with_slash s'
  end.

(** [os.path.join(a, b)] on a POSIX host. *)
Definition os_path_join (a b : string) : string :=
  if starts_with_slash b then b
  else if bool_decide (a = "") || ends_with_slash a then a +:+ b
  else a +:+ "/" +:+ b.

(** ['sample' + str(i)] under the temporary directory. *)
Definition sample_dir_of (temp_dir : string) (i : nat) : string :=
  os_path_join temp_dir ("sample" +:+ pretty i).

(** ** File system calls *)

Definition os_path_isdir (p : string) : M bool :=
  w <- get_world ;; ret (bool_decide (p ∈ dirs w)).

(** [os.makedirs(p)]: refuses a path that already exists. *)
Definition os_makedirs (p : string) : M unit :=
  w <- get_world ;;
  if bool_decide (p ∈ dirs w) || bool_decide (is_Some (files w !! p))
  then raise FileExistsError
  else modify_world (set_dirs ({[p]} ∪ dirs w)).

(** [open(p, 'w')]: creates or truncates the file.  The parent directory is
    not looked at: every caller below has just created it. *)
Definition open_w (p : string) : M unit :=
  w <- get_world ;;
  if bool_decide (p ∈ dirs w) then raise IsADirectoryError
  else modify_world (set_files (<[p := ""]> (files w))).

Section Compass.

(** *** pandas' reader and writer

    [pd_parse] is what [pd.read_table(_, index_col=0)] makes of the bytes
    of a file, [None] when it refuses them; [pd_format] is the text
    [DataFrame.to_csv(_, sep="\t")] writes. *)
Variable pd_parse : string -> option DataFrame.
Variable pd_format : DataFrame -> string.

(** What reading a table at [p] gives in world [w]. *)
Definition read_table_in (w : World) (p : string) : result DataFrame :=
  if bool_decide (p ∈ dirs w) then Raise IsADirectoryError
  else match files w !! p with
       | None => Raise FileNotFoundError
       | Some bytes =>
           match pd_parse bytes with
           | Some df => Ok df
           | None => Raise ParserError
           end
       end.

Definition read_table (p : string) : M DataFrame :=
  w <- get_world ;; lift (read_table_in w p).

Definition to_csv (df : DataFrame) (p : string) : M unit :=
  w <- get_world ;;
  if bool_decide (p ∈ dirs w) then raise IsADirectoryError
  else modify_world (set_files (<[p := pd_format df]> (files w))).

(** *** collectCompassResults *)

(** The three lists the loop appends to. *)
Record Gathered : Type := mkGathered {
  reactions_all : list DataFrame;
  secretions_all : list DataFrame;
  uptake_all : list DataFrame
}.

(** [try: t = read_table(join(sample_dir, name)); acc.append(t)]
    [except: acc.append(pd.DataFrame(columns=[sample_name]))] *)
Definition append_table (sample_dir name sample_name : string)
    (acc : list DataFrame) : M (list DataFrame) :=
  try_except
    (t <- read_table (os_path_join sample_dir name) ;; ret (acc ++ [t]))
    (ret (acc ++ [empty_frame [sample_name]])).

(** One turn of the loop, for sample [i]. *)
Definition gather_sample (expression : DataFrame) (temp_dir : string)
    (i : nat) (acc : Gathered) : M Gathered :=
  sample_name <- lift (match columns expression !! i with
                       | Some s => Ok s
                       | None => Raise IndexError
                       end) ;;
  let sample_dir := sample_dir_of temp_dir i in
  r <- append_table sample_dir "reactions.txt" sample_name
         (reactions_all acc) ;;
  s <- append_table sample_dir "secretions.txt" sample_name
         (secretions_all acc) ;;
  u <- append_table sample_dir "uptake.txt" sample_name
         (uptake_all acc) ;;
  ret (mkGathered r s u).

(** Lines 252-297: the output directory, the matrix header and the loop
    that gathers the per-sample tables. *)
Definition gather_results (data temp_dir out_dir : string) : M Gathered :=
  isdir <- os_path_isdir out_dir ;;
  (if isdir then ret tt else os_makedirs out_dir) ;;;
  expression <- read_table data ;;
  let n_samples := length (columns expression) in
  for_each (seq 0 n_samples) (gather_sample expression temp_dir)
    (mkGathered [] [] []).

(** Join one kind of table and write it out. *)
Definition join_and_output (tables : list DataFrame) (out_dir name : string)
    : M unit :=
  merged <- lift (concat_axis1 tables) ;;
  to_csv merged (os_path_join out_dir name).

Definition collectCompassResults (data temp_dir out_dir : string)
    : M unit :=
  g <- gather_results data temp_dir out_dir ;;
  join_and_output (reactions_all g) out_dir "reactions.txt" ;;;
  join_and_output (secretions_all g) out_dir "secretions.txt" ;;;
  join_and_output (uptake_all g) out_dir "uptake.txt".

(** The three kinds of result table, for statements that range over
    them. *)
Inductive kind : Type := Reactions | Secretions | Uptake.

Definition file_name (k : kind) : string :=
  match k with
  | Reactions => "reactions.txt"
  | Secretions => "secretions.txt"
  | Uptake => "uptake.txt"
  end.

Definition tables (k : kind) (g : Gathered) : list DataFrame :=
  match k with
  | Reactions => reactions_all g
  | Secretions => secretions_all g
  | Uptake => uptake_all g
  end.

(** Path of the table of kind [k] of sample [i]. *)
Definition sample_table (temp_dir : string) (i : nat) (k : kind) : string :=
  os_path_join (sample_dir_of temp_dir i) (file_name k).

(** *** parseArgs *)

(** The namespace [argparse] returns, one field per option.  An option
    that was not given and has no default is [None]; the smoothing factor
    is a rational, which is all the bounds check needs. *)
Record Namespace : Type := mkNamespace {
  a_data : string;
  a_model : string;
  a_media : option string;
  a_output_dir : string;
  a_temp_dir : string;
  a_torque_queue : option string;
  a_num_processes : option Z;
  a_lambda : Q;
  a_single_sample : option Z;
  a_collect : bool;
  a_test : bool;
  a_perplexity : option Z;
  a_symmetric_kernel : bool
}.

(** [os.path.abspath], which depends on the working directory. *)
Variable abspath : string -> string.

Definition parseArgs (ns : Namespace) : M Namespace :=
  let data := abspath (a_data ns) in
  let output_dir := abspath (a_output_dir ns) in
  let temp_dir := abspath (a_temp_dir ns) in
  modify_world (fun w =>
    set_flags (a_test ns) (a_symmetric_kernel ns)
      (match a_perplexity ns with
       | Some p => p
       | None => PERPLEXITY w
       end) w) ;;;
  let media := match a_media ns with
               | None => Some "None"
               | Some m => Some m
               end in
  if Qlt_le_dec (a_lambda ns) 0 then raise (SystemExit 2)
  else if Qlt_le_dec 1 (a_lambda ns) then raise (SystemExit 2)
  else ret (mkNamespace data (a_model ns) media output_dir temp_dir
              (a_torque_queue ns) (a_num_processes ns) (a_lambda ns)
              (a_single_sample ns) (a_collect ns) (a_test ns)
              (a_perplexity ns) (a_symmetric_kernel ns)).

(** *** Collaborators

    [singleSampleCompass], [submitCompassTorque] and
    [globals.init_logger] live in other modules: each is taken as an
    arbitrary function of its arguments and of the world, which it may
    change and in which it may raise.  [git_rev_parse] is the outcome of
    the [git rev-parse] subprocess, [cpu_count] the value of
    [multiprocessing.cpu_count()]. *)
Variable singleSampleCompass : SolveArgs -> World -> result unit * World.
Variable submitCompassTorque : TorqueArgs -> World -> result unit * World.
Variable init_logger : string -> World -> result unit * World.
Variable git_rev_parse : World -> result string.
Variable cpu_count : Z.

(** Completion order of the jobs of a pool of [n] jobs: the order in which
    [imap_unordered] hands their results back. *)
Variable completion_order : nat -> list nat.

Definition call_solver (a : SolveArgs) : M unit :=
  fun s =>
    let '(r, w') := singleSampleCompass a (world s) in
    (r, mkState w' (trace s ++ [EvSolve a (world s)])).

Definition call_torque (a : TorqueArgs) : M unit :=
  fun s =>
    let '(r, w') := submitCompassTorque a (world s) in
    (r, mkState w' (trace s ++ [EvTorque a])).

Definition call_init_logger (directory : string) : M unit :=
  fun s =>
    let '(r, w') := init_logger directory (world s) in
    (r, mkState w' (trace s ++ [EvInitLogger directory (world s)])).

(** *** _parallel_map_fun *)

Definition _parallel_map_fun (i : nat) (data model : string)
    (media : option string) (temp_dir : string) (lambda_ : Q) : M unit :=
  let sample_dir := sample_dir_of temp_dir i in
  isdir <- os_path_isdir sample_dir ;;
  (if isdir then ret tt else os_makedirs sample_dir) ;;;
  let out_file := os_path_join sample_dir "out.log" in
  let err_file := os_path_join sample_dir "err.log" in
  open_w out_file ;;;
  open_w err_file ;;;
  modify_world (set_stdout (ToFile out_file)) ;;;
  modify_world (set_stderr (ToFile err_file)) ;;;
  call_init_logger sample_dir ;;;
  call_solver (mkSolveArgs data model media sample_dir lambda_
                 (Z.of_nat i)).

(** *** The worker pool *)

(** [multiprocessing.Pool(processes)] *)
Definition Pool (processes : Z) : M unit :=
  if (processes <? 1)%Z then raise ValueError
  else emit (EvPool processes).

(** A job runs in a worker process: it shares the file system with the
    parent, but what it does to its own streams and flags stays in the
    worker. *)
Definition back_in_parent (parent after_job : World) : World :=
  mkWorld (files after_job) (dirs after_job)
          (sys_stdout parent) (sys_stderr parent)
          (TEST_MODE parent) (SYMMETRIC_KERNEL parent) (PERPLEXITY parent).

Definition in_worker (job : M unit) : M unit :=
  fun s =>
    let '(r, s') := job s in
    (r, mkState (back_in_parent (world s) (world s')) (trace s')).

(** [for _ in pool.imap_unordered(f, range(n)): pbar.update()]: results
    come back in completion order, and the result of a job that raised is
    that exception, raised again in the parent when the loop reaches it. *)
Definition imap_unordered_loop (f : nat -> M unit) (n : nat) : M unit :=
  for_each (completion_order n)
    (fun i _ => in_worker (f i) ;;; emit EvProgress) tt.

(** *** entry *)

(** The debug preamble: only the subprocess call can raise, and only a
    [CalledProcessError] is caught.  The calls of the logger change nothing
    that is modelled and are left out, here and below. *)
Definition log_versions : M unit :=
  try_except_only
    (fun e => match e with CalledProcessError => true | _ => false end)
    (w <- get_world ;; lift (git_rev_parse w) ;;; ret tt)
    (ret tt).

(** Lines 169-173: what [args['num_processes']] ends up as. *)
Definition effective_num_processes (requested : option Z) : Z :=
  let n := match requested with
           | None => cpu_count
           | Some n => n
           end in
  if (cpu_count <? n)%Z then cpu_count else n.

Definition entry (ns : Namespace) : M unit :=
  args <- parseArgs ns ;;
  log_versions ;;;
  match a_single_sample args with
  | Some sample_index =>
      call_solver (mkSolveArgs (a_data args) (a_model args) (a_media args)
                     (a_temp_dir args) (a_lambda args) sample_index)
  | None =>
  match a_torque_queue args with
  | Some queue =>
      call_torque (mkTorqueArgs (a_data args) (a_model args) (a_media args)
                     (a_temp_dir args) (a_output_dir args) (a_lambda args)
                     (Some queue))
  | None =>
  if a_collect args
  then collectCompassResults (a_data args) (a_temp_dir args)
         (a_output_dir args)
  else
    let num_processes := effective_num_processes (a_num_processes args) in
    data <- read_table (a_data args) ;;
    let n_samples := length (columns data) in
    Pool num_processes ;;;
    imap_unordered_loop
      (fun i => _parallel_map_fun i (a_data args) (a_model args)
                  (a_media args) (a_temp_dir args) (a_lambda args))
      n_samples ;;;
    collectCompassResults (a_data args) (a_temp_dir args)
      (a_output_dir args)
  end
  end.

(** *** Notions the statements below are phrased in *)

(** What the loop appends for sample [i] and kind [k] in world [w]: the
    table read from the sample's file, or the placeholder. *)
Definition table_or_placeholder (w : World) (temp_dir : string) (k : kind)
    (i : nat) (sample_name : string) : DataFrame :=
  match read_table_in w (sample_table temp_dir i k) with
  | Ok t => t
  | Raise _ => empty_frame [sample_name]
  end.

Definition tables_of (w : World) (expression : DataFrame)
    (temp_dir : string) (k : kind) : list DataFrame :=
  imap (table_or_placeholder w temp_dir k) (columns expression).

(** The three lists once the loop is over. *)
Definition gathered_of (w : World) (expression : DataFrame)
    (temp_dir : string) : Gathered :=
  mkGathered (tables_of w expression temp_dir Reactions)
             (tables_of w expression temp_dir Secretions)
             (tables_of w expression temp_dir Uptake).

(** What joining and writing one kind does to a world: the exception it
    raises, or the world with the file written. *)
Definition join_outcome (w : World) (tabs : list DataFrame)
    (out_dir name : string) : result World :=
  match concat_axis1 tabs with
  | Raise x => Raise x
  | Ok merged =>
      if bool_decide (os_path_join out_dir name ∈ dirs w)
      then Raise IsADirectoryError
      else Ok (set_files (<[os_path_join out_dir name := pd_format merged]>
                            (files w)) w)
  end.

(** Column labels sample [i] contributes to a merged table of kind [k]. *)
Definition labels_of (w : World) (temp_dir : string) (k : kind) (i : nat)
    (sample_name : string) : list string :=
  match read_table_in w (sample_table temp_dir i k) with
  | Ok t => columns t
  | Raise _ => [sample_name]
  end.

(** The world once the output directory is there. *)
Definition after_setup (w : World) (out_dir : string) : World :=
  if bool_decide (out_dir ∈ dirs w) then w
  else set_dirs ({[out_dir]} ∪ dirs w) w.





(** The claim on independent kinds: a kind whose tables can be joined and
    whose output path can be written is written by the run, whatever
    happens to the other kinds. *)
Definition kinds_independent_claim : Prop :=
  forall (data temp_dir out_dir : string) (s s1 : State) (g : Gathered)
         (k : kind) (merged : DataFrame),
    gather_results data temp_dir out_dir s = (Ok g, s1) ->
    concat_axis1 (tables k g) = Ok merged ->
    os_path_join out_dir (file_name k) ∉ dirs (world s1) ->
    files (world (snd (collectCompassResults data temp_dir out_dir s)))
      !! os_path_join out_dir (file_name k) = Some (pd_format merged).

(** The media identity an event hands to a collaborator. *)
Definition media_received (ev : event) : option (option string) :=
  match ev with
  | EvSolve a _ => Some (sa_media a)
  | EvTorque a => Some (ta_media a)
  | _ => None
  end.

(** The claim on the media sentinel: with no media given, every solver or
    queue call of the run receives [sentinel] as its media. *)
Definition media_sentinel_claim (sentinel : string) : Prop :=
  forall (ns : Namespace) (s : State),
    a_media ns = None ->
    trace s = [] ->
    Forall (fun ev => forall m, media_received ev = Some m ->
                                m = Some sentinel)
           (trace (snd (entry ns s))).

(** Whether a logged solver call returned. *)
Definition solver_returned (ev : event) : Prop :=
  match ev with
  | EvSolve a w => fst (singleSampleCompass a w) = Ok tt
  | _ => True
  end.

(** [m] adds to the trace only events that satisfy [P]. *)
Definition adds_only {A} (P : event -> Prop) (m : M A) : Prop :=
  forall s, exists new,
    trace (snd (m s)) = trace s ++ new /\ Forall P new.


(** [m] is fail-fast: every solver call it logs returned, except possibly
    the very last event it logs, a solver call whose exception is then
    the outcome of [m]. *)
Definition fail_fast {A} (m : M A) : Prop :=
  forall s, exists new,
    trace (snd (m s)) = trace s ++ new /\
    (Forall solver_returned new \/
     exists pre a w x,
       new = pre ++ [EvSolve a w] /\
       Forall solver_returned pre /\
       fst (singleSampleCompass a w) = Raise x /\
       fst (m s) = Raise x).

(** The namespace with another [--num-processes]. *)
Definition with_num_processes (n : option Z) (ns : Namespace) : Namespace :=
  mkNamespace (a_data ns) (a_model ns) (a_media ns) (a_output_dir ns)
    (a_temp_dir ns) (a_torque_queue ns) n (a_lambda ns)
    (a_single_sample ns) (a_collect ns) (a_test ns) (a_perplexity ns)
    (a_symmetric_kernel ns).

(** What a solver call of single-sample mode looks like, started from
    world [w0]: the destination is the temporary directory itself, and the
    solver starts with the files, directories and standard streams of
    [w0]. *)
Definition direct_solver_call (ns : Namespace) (w0 : World)
    (sample_index : Z) (ev : event) : Prop :=
  match ev with
  | EvSolve a w =>
      sa_directory a = abspath (a_temp_dir ns) /\
      sa_sample_index a = sample_index /\
      files w = files w0 /\ dirs w = dirs w0 /\
      sys_stdout w = sys_stdout w0 /\ sys_stderr w = sys_stderr w0
  | _ => False
  end.

(** The world a pool job has prepared for sample [i] when it hands over
    to the logger set-up and the solver: the sample's own directory is
    there, both capture files are there, and the two standard streams
    point at them. *)
Definition prepared_for_sample (temp_dir : string) (i : nat) (w : World)
    : Prop :=
  let sample_dir := sample_dir_of temp_dir i in
  sample_dir ∈ dirs w /\
  is_Some (files w !! os_path_join sample_dir "out.log") /\
  is_Some (files w !! os_path_join sample_dir "err.log") /\
  sys_stdout w = ToFile (os_path_join sample_dir "out.log") /\
  sys_stderr w = ToFile (os_path_join sample_dir "err.log").

(** What the events of a pool job for sample [i] look like. *)
Definition pooled_solver_call (temp_dir : string) (i : nat) (ev : event)
    : Prop :=
  let sample_dir := sample_dir_of temp_dir i in
  match ev with
  | EvInitLogger d w => d = sample_dir /\ prepared_for_sample temp_dir i w
  | EvSolve a w =>
      sa_directory a = sample_dir /\
      sa_sample_index a = Z.of_nat i /\
      exists w1, prepared_for_sample temp_dir i w1 /\
                 w = snd (init_logger sample_dir w1)
  | _ => False
  end.

(** What an event of a run of [entry] on namespace [ns] looks like: every
    call carries the parsed arguments. *)
Definition entry_event (ns : Namespace) (ev : event) : Prop :=
  let media := Some (default "None" (a_media ns)) in
  match ev with
  | EvSolve a w =>
      sa_data a = abspath (a_data ns) /\ sa_model a = a_model ns /\
      sa_media a = media /\ sa_lambda a = a_lambda ns
  | EvTorque a =>
      ta_data a = abspath (a_data ns) /\ ta_model a = a_model ns /\
      ta_media a = media /\ ta_lambda a = a_lambda ns /\
      ta_queue a = a_torque_queue ns
  | EvPool n => n = effective_num_processes (a_num_processes ns)
  | EvInitLogger _ _ | EvProgress => True
  end.

(** *** Notions for the further properties *)

(** The namespace with another [--media]. *)
Definition with_media (m : option string) (ns : Namespace) : Namespace :=
  mkNamespace (a_data ns) (a_model ns) m (a_output_dir ns) (a_temp_dir ns)
    (a_torque_queue ns) (a_num_processes ns) (a_lambda ns)
    (a_single_sample ns) (a_collect ns) (a_test ns) (a_perplexity ns)
    (a_symmetric_kernel ns).

(** The namespace with another [--torque-queue], [--collect] and
    [--num-processes]. *)
Definition with_modes (queue : option string) (collect : bool)
    (processes : option Z) (ns : Namespace) : Namespace :=
  mkNamespace (a_data ns) (a_model ns) (a_media ns) (a_output_dir ns)
    (a_temp_dir ns) queue processes (a_lambda ns) (a_single_sample ns)
    collect (a_test ns) (a_perplexity ns) (a_symmetric_kernel ns).

(** The dictionary [parseArgs] returns for a namespace it accepts. *)
Definition parsed (ns : Namespace) : Namespace :=
  mkNamespace (abspath (a_data ns)) (a_model ns)
    (Some (default "None" (a_media ns)))
    (abspath (a_output_dir ns)) (abspath (a_temp_dir ns))
    (a_torque_queue ns) (a_num_processes ns) (a_lambda ns)
    (a_single_sample ns) (a_collect ns) (a_test ns) (a_perplexity ns)
    (a_symmetric_kernel ns).

(** An outcome of the version probe that [entry] lets pass. *)
Definition tolerated (r : result string) : Prop :=
  match r with
  | Ok _ | Raise CalledProcessError => True
  | Raise _ => False
  end.

(** The world once [parseArgs] has set the flags of [globals]. *)
Definition flags_set (ns : Namespace) (w : World) : World :=
  set_flags (a_test ns) (a_symmetric_kernel ns)
    (match a_perplexity ns with
     | Some p => p
     | None => PERPLEXITY w
     end) w.






End Compass.

(** ** A plain tab-separated reader and writer

    A small reader and writer of tab-separated tables, used to run the
    definitions above on concrete files.  The first line is the header, whose
    first field names the index column; an empty field is a missing value; a
    row with more fields than the header is refused, and so is an empty
    file. *)

Module Tsv.

Definition tab : ascii := "009"%char.
Definition newline : ascii := "010"%char.

Fixpoint split_on (sep : ascii) (s : string) : list string :=
  match s with
  | EmptyString => [""]
  | String c s' =>
      if decide (c = sep) then "" :: split_on sep s'
      else match split_on sep s' with
           | h :: t => String c h :: t
           | [] => [String c ""]
           end
  end.

(** Lines of a file; the text after the last newline is dropped when
    empty. *)
Definition lines (s : string) : list string :=
  let ls := split_on newline s in
  match last ls with
  | Some "" => take (length ls - 1) ls
  | _ => ls
  end.

Definition field (fields : list string) (c : nat) : cell :=
  match fields !! c with
  | Some "" => None
  | Some v => Some v
  | None => None
  end.

Definition parse (bytes : string) : option DataFrame :=
  match lines bytes with
  | [] => None
  | header :: rows =>
      let cols := tail (split_on tab header) in
      let rws : list (list string) := split_on tab <$> rows in
      if forallb (fun r : list string =>
                    (length r <=? S (length cols))%nat) rws
      then Some (mkDataFrame (hd "" <$> rws) cols
                   (fun r c => match rws !! r with
                               | Some fields => field fields (S c)
                               | None => None
                               end))
      else None
  end.

Fixpoint join_fields (fields : list string) : string :=
  match fields with
  | [] => ""
  | [f] => f
  | f :: rest => f +:+ String tab (join_fields rest)
  end.

Definition line (fields : list string) : string :=
  join_fields fields +:+ String newline "".

Definition show (c : cell) : string := default "" c.

Definition format (df : DataFrame) : string :=
  line ("" :: columns df) +:+
  foldr String.app ""
    (imap (fun r l =>
             line (l :: ((fun c => show (iat df r c))
                           <$> seq 0 (length (columns df)))))
          (index df)).

End Tsv.

(** ** Concrete worlds and collaborators *)

Module Demo.

Definition world_of (fs : list (string * string)) (ds : list string)
    : World :=
  mkWorld (list_to_map fs) (list_to_set ds) Console Console false false
          30%Z.

Definition start (w : World) : State := mkState w [].

(** A matrix of three samples, and one with no sample at all. *)
Definition matrix : string :=
  Tsv.line ["gene"; "s1"; "s2"; "s3"] +:+ Tsv.line ["g1"; "1"; "2"; "3"].
Definition expression : DataFrame :=
  default (empty_frame []) (Tsv.parse matrix).


(** A per-sample table with one column and two rows. *)
Definition table (label r1 v1 r2 v2 : string) : string :=
  Tsv.line [""; label] +:+ Tsv.line [r1; v1] +:+ Tsv.line [r2; v2].

Definition solved (dir label : string) : list (string * string) :=
  [(dir +:+ "/reactions.txt", table label "r1" "0.5" "r2" "0.7");
   (dir +:+ "/secretions.txt", table label "m1" "1.5" "m2" "1.7");
   (dir +:+ "/uptake.txt", table label "m2" "2.5" "m3" "2.7")].

Definition work_dirs : list string :=
  ["/tmp"; "/tmp/sample0"; "/tmp/sample1"; "/tmp/sample2"].

(** [s1] and [s3] were solved; the work directory of [s2] is empty. *)
Definition partial_files : list (string * string) :=
  ("/m.tsv", matrix) ::
  solved "/tmp/sample0" "s1" ++
  [("/tmp/sample2/reactions.txt", table "s3" "r2" "3.5" "r3" "3.7");
   ("/tmp/sample2/secretions.txt", table "s3" "m1" "4.5" "m2" "4.7");
   ("/tmp/sample2/uptake.txt", table "s3" "m2" "5.5" "m3" "5.7")].
Definition partial : World := world_of partial_files work_dirs.

(** The same, with a directory sitting where [reactions.txt] is to be
    written. *)
Definition blocked : World :=
  world_of partial_files (work_dirs ++ ["/out"; "/out/reactions.txt"]).

(** The same as [partial], but the reactions table of the first sample
    carries the label [cellA] rather than [s1]. *)
Definition relabelled : World :=
  world_of (("/tmp/sample0/reactions.txt",
             table "cellA" "r1" "0.5" "r2" "0.7") :: partial_files)
           work_dirs.

(** Collaborators: a solver that returns, a solver that raises for one
    sample, and a queue, a logger set-up and a version probe that
    return. *)
Definition solver_ok : SolveArgs -> World -> result unit * World :=
  fun _ w => (Ok tt, w).
Definition torque_ok : TorqueArgs -> World -> result unit * World :=
  fun _ w => (Ok tt, w).
Definition logger_ok : string -> World -> result unit * World :=
  fun _ w => (Ok tt, w).
Definition git_ok : World -> result string := fun _ => Ok "0a1b2c3".
Definition units : Z := 8.

(** Jobs complete last first. *)
Definition last_first (n : nat) : list nat := rev (seq 0 n).

(** Absolute paths on the command line, no media. *)
Definition namespace (single : option Z) (processes : option Z)
    : Namespace :=
  mkNamespace "/m.tsv" "RECON1_mat" None "/out" "/tmp" None processes 0
    single false false None false.

Definition run (solver : SolveArgs -> World -> result unit * World)
    (ns : Namespace) (w : World) : result unit * State :=
  entry Tsv.parse Tsv.format (fun p => p) solver torque_ok logger_ok
    git_ok units last_first ns (start w).


(** The reactions the collector merges in [relabelled]. *)
Definition relabelled_merged : DataFrame :=
  outer_join (tables Reactions
                (gathered_of Tsv.parse relabelled expression "/tmp")).


Definition collect (w : World) : result unit * State :=
  collectCompassResults Tsv.parse Tsv.format "/m.tsv" "/tmp" "/out"
    (start w).

(** [partial] with a regular file at the output path; the work directories
    with no matrix; a matrix with nothing solved yet; and [partial] with a
    table left over for a sample the matrix does not have, and a file of
    notes. *)
Definition file_at_out : World :=
  world_of (("/out", "") :: partial_files) work_dirs.
Definition no_matrix : World := world_of [] work_dirs.

(** A regular file where the work directory of the second sample goes, and
    a directory where its [err.log] goes. *)
Definition file_at_sample : World :=
  world_of [("/m.tsv", matrix); ("/tmp/sample1", "")] ["/tmp"].
Definition dir_at_err_log : World :=
  world_of [("/m.tsv", matrix)]
           ["/tmp"; "/tmp/sample1"; "/tmp/sample1/err.log"].

(** A version probe that finds no [git], and one whose [git] fails. *)
Definition git_missing : World -> result string :=
  fun _ => Raise FileNotFoundError.
Definition git_failed : World -> result string :=
  fun _ => Raise CalledProcessError.

(** The same command line with a queue, and with [--collect]. *)
Definition queued : Namespace :=
  with_modes (Some "batch") false None (namespace None None).
Definition collecting : Namespace :=
  with_modes None true None (namespace None None).

(** A run with another version probe. *)
Definition run_with (git : World -> result string) (ns : Namespace)
    (w : World) : result unit * State :=
  entry Tsv.parse Tsv.format (fun p => p) solver_ok torque_ok logger_ok
    git units last_first ns (start w).

(** The pool job of the second sample. *)
Definition second_job (w : World) : result unit * State :=
  _parallel_map_fun solver_ok logger_ok 1 "/m.tsv" "RECON1_mat"
    (Some "None") "/tmp" 0 (start w).

End Demo.

(** * Properties *)

(** ** Joining tables *)

Section ConcatFacts.








Lemma concat_axis1_columns (frames : list DataFrame) (m : DataFrame) :
  concat_axis1 frames = Ok m -> columns m = frames ≫= columns.
Proof.
  unfold concat_axis1. destruct frames as [|f rest]; [done|].
  destruct (forallb unique_index (f :: rest)); [by intros [= <-]|].
  destruct (forallb _ rest); [by intros [= <-] | done].
Qed.




End ConcatFacts.

(** ** Paths *)

Section PathFacts.




Lemma os_path_join_inj (a b1 b2 : string) :
  starts_with_slash b1 = false -> starts_with_slash b2 = false ->
  os_path_join a b1 = os_path_join a b2 -> b1 = b2.
Proof.
  intros H1 H2. unfold os_path_join. rewrite H1, H2.
  destruct (bool_decide (a = "") || ends_with_slash a).
  - apply (inj (String.app a)).
  - intros H%(inj (String.app a)). by apply (inj (String.app "/")) in H.
Qed.

Lemma file_name_relative (k : kind) :
  starts_with_slash (file_name k) = false /\ file_name k <> "".
Proof. by destruct k. Qed.


Lemma out_path_inj (out_dir : string) (k k' : kind) :
  os_path_join out_dir (file_name k) = os_path_join out_dir (file_name k') ->
  k = k'.
Proof.
  intros H%os_path_join_inj; try apply file_name_relative.
  by destruct k, k'.
Qed.

End PathFacts.

(** ** The collector, step by step *)

Section CollectorFacts.

Variable pd_parse : string -> option DataFrame.
Variable pd_format : DataFrame -> string.

Lemma bind_ok {A B} (m : M A) (k : A -> M B) (s s' : State) (a : A) :
  m s = (Ok a, s') -> bind m k s = k a s'.
Proof. unfold bind. by intros ->. Qed.

Lemma bind_raise {A B} (m : M A) (k : A -> M B) (s s' : State) (e : exc) :
  m s = (Raise e, s') -> bind m k s = (Raise e, s').
Proof. unfold bind. by intros ->. Qed.

Lemma state_eta (s : State) : mkState (world s) (trace s) = s.
Proof. by destruct s. Qed.

Lemma read_table_run (p : string) (s : State) :
  read_table pd_parse p s = (read_table_in pd_parse (world s) p, s).
Proof. reflexivity. Qed.

(** Reading looks at the directories and at the file under the path
    only. *)
Lemma read_table_in_ext (w w' : World) (p : string) :
  dirs w' = dirs w -> files w' !! p = files w !! p ->
  read_table_in pd_parse w' p = read_table_in pd_parse w p.
Proof. unfold read_table_in. by intros -> ->. Qed.

Lemma append_table_run (sample_dir name sample_name : string)
    (acc : list DataFrame) (s : State) :
  append_table pd_parse sample_dir name sample_name acc s =
  (Ok (acc ++ [match read_table_in pd_parse (world s)
                       (os_path_join sample_dir name) with
               | Ok t => t
               | Raise _ => empty_frame [sample_name]
               end]), s).
Proof.
  unfold append_table, try_except, bind. rewrite read_table_run.
  by destruct (read_table_in _ _ _).
Qed.

Lemma gather_sample_run (e : DataFrame) (temp_dir : string) (i : nat)
    (name : string) (acc : Gathered) (s : State) :
  columns e !! i = Some name ->
  gather_sample pd_parse e temp_dir i acc s =
  (Ok (mkGathered
         (reactions_all acc ++
            [table_or_placeholder pd_parse (world s) temp_dir
               Reactions i name])
         (secretions_all acc ++
            [table_or_placeholder pd_parse (world s) temp_dir
               Secretions i name])
         (uptake_all acc ++
            [table_or_placeholder pd_parse (world s) temp_dir
               Uptake i name])), s).
Proof.
  intros Hi. unfold gather_sample, bind, lift. rewrite Hi.
  by rewrite !append_table_run.
Qed.

Lemma gather_loop (e : DataFrame) (temp_dir : string) (s : State)
    (todo : list string) :
  forall (done : list string) (acc : Gathered),
    columns e = done ++ todo ->
    for_each (seq (length done) (length todo))
      (gather_sample pd_parse e temp_dir) acc s =
    (Ok (mkGathered
           (reactions_all acc ++
              imap (fun i => table_or_placeholder pd_parse (world s)
                               temp_dir Reactions (length done + i)) todo)
           (secretions_all acc ++
              imap (fun i => table_or_placeholder pd_parse (world s)
                               temp_dir Secretions (length done + i)) todo)
           (uptake_all acc ++
              imap (fun i => table_or_placeholder pd_parse (world s)
                               temp_dir Uptake (length done + i)) todo)),
     s).
Proof.
  induction todo as [|name todo IH]; intros done acc Hcols.
  - simpl. rewrite !app_nil_r. by destruct acc.
  - cbn [length seq for_each].
    erewrite bind_ok; last first.
    { apply gather_sample_run. rewrite Hcols.
      by rewrite list_lookup_middle. }
    specialize (IH (done ++ [name])). rewrite length_app in IH.
    replace (length done + length [name]) with (S (length done)) in IH
      by (simpl; lia).
    rewrite IH by (by rewrite <- app_assoc).
    cbn [reactions_all secretions_all uptake_all].
    rewrite !imap_cons, <- !app_assoc, !Nat.add_0_r.
    do 3 f_equal; f_equal; f_equal; apply imap_ext; intros; simpl;
      f_equal; lia.
Qed.

Lemma gather_loop_all (e : DataFrame) (temp_dir : string) (s : State) :
  for_each (seq 0 (length (columns e)))
    (gather_sample pd_parse e temp_dir) (mkGathered [] [] []) s =
  (Ok (gathered_of pd_parse (world s) e temp_dir), s).
Proof. by rewrite (gather_loop e temp_dir s (columns e) [] _ eq_refl). Qed.

(** The gathering phase in closed form. *)
Lemma gather_results_run (data temp_dir out_dir : string) (s : State) :
  gather_results pd_parse data temp_dir out_dir s =
  if bool_decide (out_dir ∈ dirs (world s))
     || negb (bool_decide (is_Some (files (world s) !! out_dir)))
  then
    let s1 := mkState (after_setup (world s) out_dir) (trace s) in
    match read_table_in pd_parse (world s1) data with
    | Ok e => (Ok (gathered_of pd_parse (world s1) e temp_dir), s1)
    | Raise x => (Raise x, s1)
    end
  else (Raise FileExistsError, s).
Proof.
  unfold gather_results, after_setup, os_path_isdir, os_makedirs, bind,
    get_world, ret, raise, modify_world.
  destruct (bool_decide (out_dir ∈ dirs (world s))) eqn:Hd; cbn -[seq].
  - rewrite state_eta.
    destruct (read_table_in _ _ _); [|done]. apply gather_loop_all.
  - rewrite Hd. destruct (bool_decide (is_Some _)); cbn -[seq]; [done|].
    destruct (read_table_in _ _ _); [|done]. apply gather_loop_all.
Qed.

Lemma join_and_output_run (tabs : list DataFrame) (out_dir name : string)
    (s : State) :
  join_and_output pd_format tabs out_dir name s =
  match join_outcome pd_format (world s) tabs out_dir name with
  | Ok w' => (Ok tt, mkState w' (trace s))
  | Raise x => (Raise x, s)
  end.
Proof.
  unfold join_and_output, join_outcome, to_csv, bind, lift, get_world,
    raise, modify_world.
  destruct (concat_axis1 tabs); [|done]. by destruct (bool_decide _).
Qed.

(** Creating the output directory changes no read that succeeds. *)
Lemma read_after_setup (w : World) (out_dir p : string) (t : DataFrame) :
  out_dir ∈ dirs w \/ files w !! out_dir = None ->
  read_table_in pd_parse (after_setup w out_dir) p = Ok t <->
  read_table_in pd_parse w p = Ok t.
Proof.
  intros Hout. unfold after_setup.
  destruct (bool_decide (out_dir ∈ dirs w)) eqn:Hd; [done|].
  apply bool_decide_eq_false in Hd. destruct Hout as [|Hnone]; [done|].
  unfold read_table_in. simpl.
  destruct (decide (p = out_dir)) as [->|Hne].
  - rewrite Hnone.
    assert (out_dir ∈ {[out_dir]} ∪ dirs w) as Hin'
      by (apply elem_of_union_l; by apply elem_of_singleton).
    by rewrite (bool_decide_eq_true_2 _ Hin'), (bool_decide_eq_false_2 _ Hd).
  - destruct (decide (p ∈ dirs w)) as [Hin|Hnin].
    + assert (p ∈ {[out_dir]} ∪ dirs w) as Hin'
        by (by apply elem_of_union_r).
      by rewrite (bool_decide_eq_true_2 _ Hin), (bool_decide_eq_true_2 _ Hin').
    + assert (p ∉ {[out_dir]} ∪ dirs w) as Hnin'.
      { by intros [?%elem_of_singleton | ?]%elem_of_union. }
      by rewrite (bool_decide_eq_false_2 _ Hnin),
        (bool_decide_eq_false_2 _ Hnin').
Qed.

Lemma table_or_placeholder_after_setup (w : World) (out_dir temp_dir : string)
    (k : kind) (i : nat) (name : string) :
  out_dir ∈ dirs w \/ files w !! out_dir = None ->
  table_or_placeholder pd_parse (after_setup w out_dir) temp_dir k i name =
  table_or_placeholder pd_parse w temp_dir k i name.
Proof.
  intros Hout. unfold table_or_placeholder.
  destruct (read_table_in pd_parse (after_setup w out_dir) _) as [t|x] eqn:E.
  - apply read_after_setup in E; [|done]. by rewrite E.
  - destruct (read_table_in pd_parse w _) as [t|y] eqn:E'; [|done].
    apply (read_after_setup w out_dir) in E'; [|done]. congruence.
Qed.

Lemma gathered_of_after_setup (w : World) (out_dir temp_dir : string)
    (e : DataFrame) :
  out_dir ∈ dirs w \/ files w !! out_dir = None ->
  gathered_of pd_parse (after_setup w out_dir) e temp_dir =
  gathered_of pd_parse w e temp_dir.
Proof.
  intros Hout. unfold gathered_of, tables_of.
  f_equal; apply imap_ext; intros; by apply table_or_placeholder_after_setup.
Qed.

Lemma setup_possible (w : World) (out_dir : string) :
  out_dir ∈ dirs w \/ files w !! out_dir = None ->
  bool_decide (out_dir ∈ dirs w)
  || negb (bool_decide (is_Some (files w !! out_dir))) = true.
Proof.
  intros [Hin|Hnone].
  - by rewrite (bool_decide_eq_true_2 _ Hin).
  - rewrite Hnone. rewrite (bool_decide_eq_false_2 (is_Some None)).
    + by rewrite orb_true_r.
    + by intros [? ?].
Qed.

(** The gathering phase returns exactly when the output directory can be
    set up and the matrix can be read; what it returns is fixed by the
    world it started in. *)
Lemma gather_results_ok (data temp_dir out_dir : string) (s : State)
    (e : DataFrame) :
  out_dir ∈ dirs (world s) \/ files (world s) !! out_dir = None ->
  read_table_in pd_parse (world s) data = Ok e ->
  gather_results pd_parse data temp_dir out_dir s =
  (Ok (gathered_of pd_parse (world s) e temp_dir),
   mkState (after_setup (world s) out_dir) (trace s)).
Proof.
  intros Hout He. rewrite gather_results_run.
  rewrite (setup_possible _ _ Hout).
  cbv zeta. cbn [world].
  apply (read_after_setup _ out_dir) in He; [|done]. rewrite He.
  by rewrite gathered_of_after_setup.
Qed.

Lemma gather_results_inv (data temp_dir out_dir : string) (s s1 : State)
    (g : Gathered) :
  gather_results pd_parse data temp_dir out_dir s = (Ok g, s1) ->
  (out_dir ∈ dirs (world s) \/ files (world s) !! out_dir = None) /\
  s1 = mkState (after_setup (world s) out_dir) (trace s) /\
  exists e, read_table_in pd_parse (world s) data = Ok e /\
            g = gathered_of pd_parse (world s) e temp_dir.
Proof.
  rewrite gather_results_run.
  destruct (bool_decide (out_dir ∈ dirs (world s))) eqn:Hd.
  - apply bool_decide_eq_true in Hd. cbv zeta. cbn [orb world].
    destruct (read_table_in _ _ _) as [e|] eqn:He; [|done].
    intros [= <- <-]. split; [by left|]. split; [done|].
    apply read_after_setup in He; [|by left]. exists e. split; [done|].
    apply gathered_of_after_setup. by left.
  - cbn [orb]. destruct (bool_decide (is_Some _)) eqn:Hf; [done|].
    apply bool_decide_eq_false in Hf.
    assert (files (world s) !! out_dir = None) as Hnone.
    { destruct (files (world s) !! out_dir) eqn:E; [|done].
      exfalso. apply Hf. eauto. }
    cbv zeta. cbn [negb world].
    destruct (read_table_in _ _ _) as [e|] eqn:He; [|done].
    intros [= <- <-]. split; [by right|]. split; [done|].
    apply read_after_setup in He; [|by right]. exists e. split; [done|].
    apply gathered_of_after_setup. by right.
Qed.

Lemma collect_after_gather (data temp_dir out_dir : string) (s s1 : State)
    (g : Gathered) :
  gather_results pd_parse data temp_dir out_dir s = (Ok g, s1) ->
  collectCompassResults pd_parse pd_format data temp_dir out_dir s =
  (join_and_output pd_format (reactions_all g) out_dir "reactions.txt" ;;;
   join_and_output pd_format (secretions_all g) out_dir "secretions.txt" ;;;
   join_and_output pd_format (uptake_all g) out_dir "uptake.txt") s1.
Proof. intros Hg. unfold collectCompassResults. by erewrite bind_ok. Qed.

Lemma tables_gathered_of (w : World) (e : DataFrame) (temp_dir : string)
    (k : kind) :
  tables k (gathered_of pd_parse w e temp_dir) =
  tables_of pd_parse w e temp_dir k.
Proof. by destruct k. Qed.



Lemma bind_imap_columns (f : nat -> string -> DataFrame) (l : list string) :
  imap f l ≫= columns = mjoin (imap (fun i n => columns (f i n)) l).
Proof.
  revert f. induction l as [|x l IH]; intros f; [done|].
  rewrite !imap_cons. simpl. f_equal. apply IH.
Qed.


(** C9. The column labels of a merged table are, sample after sample in
    matrix order, the labels stored in the sample's file when the file
    was read, and the sample identifier of the matrix header only when
    the read failed and the placeholder took its place. *)
Theorem merged_labels_come_from_files (data temp_dir out_dir : string)
    (s s1 : State) (g : Gathered) (k : kind) (merged : DataFrame) :
  gather_results pd_parse data temp_dir out_dir s = (Ok g, s1) ->
  concat_axis1 (tables k g) = Ok merged ->
  exists e,
    read_table_in pd_parse (world s) data = Ok e /\
    columns merged =
      mjoin (imap (labels_of pd_parse (world s) temp_dir k) (columns e)) /\
    (forall i name t,
       read_table_in pd_parse (world s) (sample_table temp_dir i k) = Ok t ->
       labels_of pd_parse (world s) temp_dir k i name = columns t) /\
    (forall i name,
       is_ok (read_table_in pd_parse (world s) (sample_table temp_dir i k))
         = false ->
       labels_of pd_parse (world s) temp_dir k i name = [name]).
Proof.
  intros (_ & _ & e & He & ->)%gather_results_inv Hm.
  exists e. split; [done|]. split; [|split].
  - rewrite (concat_axis1_columns _ _ Hm), tables_gathered_of.
    unfold tables_of. rewrite bind_imap_columns. f_equal.
    apply imap_ext. intros i name _.
    unfold table_or_placeholder, labels_of.
    by destruct (read_table_in pd_parse (world s) (sample_table temp_dir i k)).
  - intros i name t Ht. unfold labels_of. by rewrite Ht.
  - intros i name Hf. unfold labels_of.
    by destruct (read_table_in pd_parse (world s)
                  (sample_table temp_dir i k)); simpl in *.
Qed.


(** The run in terms of the outcomes of its three joins. *)
Lemma collect_run (data temp_dir out_dir : string) (s s1 : State)
    (g : Gathered) :
  gather_results pd_parse data temp_dir out_dir s = (Ok g, s1) ->
  collectCompassResults pd_parse pd_format data temp_dir out_dir s =
  match join_outcome pd_format (world s1) (reactions_all g) out_dir
          "reactions.txt" with
  | Raise x => (Raise x, s1)
  | Ok w2 =>
      match join_outcome pd_format w2 (secretions_all g) out_dir
              "secretions.txt" with
      | Raise x => (Raise x, mkState w2 (trace s1))
      | Ok w3 =>
          match join_outcome pd_format w3 (uptake_all g) out_dir
                  "uptake.txt" with
          | Raise x => (Raise x, mkState w3 (trace s1))
          | Ok w4 => (Ok tt, mkState w4 (trace s1))
          end
      end
  end.
Proof.
  intros Hg. rewrite (collect_after_gather _ _ _ _ _ _ Hg).
  unfold bind. rewrite join_and_output_run.
  destruct (join_outcome pd_format (world s1) _ _ _) as [w2|]; [|done].
  rewrite join_and_output_run. cbn [world trace].
  destruct (join_outcome pd_format w2 _ _ _) as [w3|]; [|done].
  rewrite join_and_output_run. cbn [world trace].
  by destruct (join_outcome pd_format w3 _ _ _).
Qed.


Lemma files_after_setup (w : World) (out_dir : string) :
  files (after_setup w out_dir) = files w.
Proof. unfold after_setup. by destruct (bool_decide _). Qed.




Lemma join_and_output_raise_state (tabs : list DataFrame)
    (out_dir name : string) (s s' : State) (x : exc) :
  join_and_output pd_format tabs out_dir name s = (Raise x, s') -> s' = s.
Proof.
  rewrite join_and_output_run.
  destruct (join_outcome pd_format (world s) tabs out_dir name);
    by intros [= <-].
Qed.

Lemma join_and_output_ok_files (tabs : list DataFrame)
    (out_dir name : string) (s s' : State) (p : string) :
  join_and_output pd_format tabs out_dir name s = (Ok tt, s') ->
  p <> os_path_join out_dir name ->
  files (world s') !! p = files (world s) !! p.
Proof.
  rewrite join_and_output_run. unfold join_outcome.
  destruct (concat_axis1 tabs); [|done].
  destruct (bool_decide _); [done|].
  intros [= <-] Hne. simpl. by rewrite lookup_insert_ne.
Qed.

(** C4 (amended). The run joins and writes the three kinds in the order
    reactions, secretions, uptake, and stops at the first kind whose join
    or write raises: that exception ends the run and no later kind is
    written.  When reactions fails no file at all is written; when
    secretions fails the uptake file is left as it was; uptake is attempted
    exactly when both earlier kinds went through. *)
Theorem first_failing_kind_ends_run (data temp_dir out_dir : string)
    (s s1 : State) (g : Gathered) :
  gather_results pd_parse data temp_dir out_dir s = (Ok g, s1) ->
  (forall x s2,
     join_and_output pd_format (reactions_all g) out_dir "reactions.txt" s1
       = (Raise x, s2) ->
     collectCompassResults pd_parse pd_format data temp_dir out_dir s
       = (Raise x, s1) /\
     files (world s1) = files (world s)) /\
  (forall s2 x s3,
     join_and_output pd_format (reactions_all g) out_dir "reactions.txt" s1
       = (Ok tt, s2) ->
     join_and_output pd_format (secretions_all g) out_dir "secretions.txt" s2
       = (Raise x, s3) ->
     collectCompassResults pd_parse pd_format data temp_dir out_dir s
       = (Raise x, s2) /\
     files (world s2) !! os_path_join out_dir "uptake.txt"
       = files (world s) !! os_path_join out_dir "uptake.txt") /\
  (forall s2 s3,
     join_and_output pd_format (reactions_all g) out_dir "reactions.txt" s1
       = (Ok tt, s2) ->
     join_and_output pd_format (secretions_all g) out_dir "secretions.txt" s2
       = (Ok tt, s3) ->
     collectCompassResults pd_parse pd_format data temp_dir out_dir s
       = join_and_output pd_format (uptake_all g) out_dir "uptake.txt" s3).
Proof.
  intros Hg. rewrite (collect_after_gather _ _ _ _ _ _ Hg).
  apply gather_results_inv in Hg as (_ & Hs1 & _).
  assert (files (world s1) = files (world s)) as Hfiles.
  { rewrite Hs1. apply files_after_setup. }
  split; [|split].
  - intros x s2 Hr. pose proof (join_and_output_raise_state _ _ _ _ _ _ Hr).
    subst s2. split; [|done]. by erewrite bind_raise.
  - intros s2 x s3 Hr Hsec.
    pose proof (join_and_output_raise_state _ _ _ _ _ _ Hsec). subst s3.
    split.
    + erewrite bind_ok by exact Hr. by erewrite bind_raise.
    + rewrite <- Hfiles.
      apply (join_and_output_ok_files _ _ _ _ _ _ Hr).
      intros H. by apply (out_path_inj out_dir Uptake Reactions) in H.
  - intros s2 s3 Hr Hsec.
    erewrite bind_ok by exact Hr. by erewrite bind_ok by exact Hsec.
Qed.

Lemma out_dir_after_setup (w : World) (out_dir : string) :
  out_dir ∈ dirs (after_setup w out_dir).
Proof.
  unfold after_setup.
  destruct (bool_decide (out_dir ∈ dirs w)) eqn:Hd.
  - by apply bool_decide_eq_true in Hd.
  - simpl. apply elem_of_union_l. by apply elem_of_singleton.
Qed.



Lemma collect_gather_raise (data temp_dir out_dir : string) (s s1 : State)
    (x : exc) :
  gather_results pd_parse data temp_dir out_dir s = (Raise x, s1) ->
  collectCompassResults pd_parse pd_format data temp_dir out_dir s
  = (Raise x, s1).
Proof. intros Hg. unfold collectCompassResults. by erewrite bind_raise. Qed.

(** The run writes nothing but the three output files. *)
Lemma collect_files_elsewhere (data temp_dir out_dir : string)
    (s s1 : State) (r : result unit) (p : string) :
  collectCompassResults pd_parse pd_format data temp_dir out_dir s
    = (r, s1) ->
  (forall k, p <> os_path_join out_dir (file_name k)) ->
  files (world s1) !! p = files (world s) !! p.
Proof.
  intros Hrun Hp.
  pose proof (Hp Reactions) as Hr. pose proof (Hp Secretions) as Hs.
  pose proof (Hp Uptake) as Hu. cbn [file_name] in Hr, Hs, Hu.
  destruct (gather_results pd_parse data temp_dir out_dir s)
    as [[g|x] sA] eqn:Hg.
  2:{ rewrite (collect_gather_raise _ _ _ _ _ _ Hg) in Hrun.
      injection Hrun as _ <-. rewrite gather_results_run in Hg.
      destruct (_ || _); [|by injection Hg as _ <-].
      cbv zeta in Hg. destruct (read_table_in _ _ _); [done|].
      injection Hg as _ <-. cbn [world]. by rewrite files_after_setup. }
  rewrite (collect_run _ _ _ _ _ _ Hg) in Hrun.
  apply gather_results_inv in Hg as (_ & -> & _).
  cbn [world trace] in Hrun. unfold join_outcome in Hrun.
  repeat match type of Hrun with
         | context [match concat_axis1 ?t with _ => _ end] =>
             destruct (concat_axis1 t)
         | context [if bool_decide ?P then _ else _] =>
             destruct (bool_decide P)
         end;
    injection Hrun as _ <-; cbn [world files set_files];
    rewrite ?lookup_insert_ne by done; by rewrite files_after_setup.
Qed.




End CollectorFacts.

(** ** What a computation adds to the trace *)

Section TraceFacts.

Context {A B : Type}.
Implicit Types (P Q : event -> Prop).

(** A computation that leaves the trace alone adds only what one likes. *)
Lemma adds_only_silent P (m : M A) :
  (forall s, trace (snd (m s)) = trace s) -> adds_only P m.
Proof.
  intros Hm s. exists []. by rewrite app_nil_r, Hm.
Qed.

Lemma adds_only_ret P (a : A) : adds_only P (ret a).
Proof. by apply adds_only_silent. Qed.

Lemma adds_only_raise P (e : exc) : adds_only P (raise (A := A) e).
Proof. by apply adds_only_silent. Qed.

Lemma adds_only_lift P (r : result A) : adds_only P (lift r).
Proof. by apply adds_only_silent. Qed.

Lemma adds_only_bind_run P (m : M A) (k : A -> M B) :
  adds_only P m ->
  (forall s a s', m s = (Ok a, s') -> adds_only P (k a)) ->
  adds_only P (bind m k).
Proof.
  intros Hm Hk s. destruct (Hm s) as (n1 & Ht1 & H1). unfold bind.
  destruct (m s) as [[a|e] s1] eqn:E; simpl in *.
  - destruct (Hk s a s1 E s1) as (n2 & Ht2 & H2).
    exists (n1 ++ n2). split.
    + by rewrite Ht2, Ht1, app_assoc.
    + by apply Forall_app.
  - by exists n1.
Qed.

Lemma adds_only_bind P (m : M A) (k : A -> M B) :
  adds_only P m -> (forall a, adds_only P (k a)) -> adds_only P (bind m k).
Proof. intros Hm Hk. apply adds_only_bind_run; [done | auto]. Qed.

Lemma adds_only_try_except P (m h : M A) :
  adds_only P m -> adds_only P h -> adds_only P (try_except m h).
Proof.
  intros Hm Hh s. destruct (Hm s) as (n1 & Ht1 & H1). unfold try_except.
  destruct (m s) as [[a|e] s1] eqn:E; simpl in *.
  - by exists n1.
  - destruct (Hh s1) as (n2 & Ht2 & H2). exists (n1 ++ n2). split.
    + by rewrite Ht2, Ht1, app_assoc.
    + by apply Forall_app.
Qed.

Lemma adds_only_try_except_only P (caught : exc -> bool) (m h : M A) :
  adds_only P m -> adds_only P h ->
  adds_only P (try_except_only caught m h).
Proof.
  intros Hm Hh s. destruct (Hm s) as (n1 & Ht1 & H1).
  unfold try_except_only.
  destruct (m s) as [[a|e] s1] eqn:E; simpl in *.
  - by exists n1.
  - destruct (caught e); [|by exists n1].
    destruct (Hh s1) as (n2 & Ht2 & H2). exists (n1 ++ n2). split.
    + by rewrite Ht2, Ht1, app_assoc.
    + by apply Forall_app.
Qed.

Lemma adds_only_for_each P (l : list B) (body : B -> A -> M A) (acc : A) :
  (forall x a, adds_only P (body x a)) -> adds_only P (for_each l body acc).
Proof.
  intros Hbody. revert acc. induction l as [|x l IH]; intros acc; simpl.
  - apply adds_only_silent. done.
  - intros s. destruct (Hbody x acc s) as (n1 & Ht1 & H1). unfold bind.
    destruct (body x acc s) as [[a|e] s1] eqn:E; simpl in *.
    + destruct (IH a s1) as (n2 & Ht2 & H2). exists (n1 ++ n2). split.
      * by rewrite Ht2, Ht1, app_assoc.
      * by apply Forall_app.
    + by exists n1.
Qed.

End TraceFacts.

Section TraceFactsUnit.

Implicit Types (P : event -> Prop).

Lemma adds_only_get_world P : adds_only P get_world.
Proof. by apply adds_only_silent. Qed.

Lemma adds_only_modify_world P (f : World -> World) :
  adds_only P (modify_world f).
Proof. by apply adds_only_silent. Qed.

Lemma adds_only_emit P (ev : event) : P ev -> adds_only P (emit ev).
Proof. intros Hev s. exists [ev]. split; [done | by constructor]. Qed.

Lemma adds_only_in_worker P (job : M unit) :
  adds_only P job -> adds_only P (in_worker job).
Proof.
  intros Hjob s. destruct (Hjob s) as (new & Ht & Hall). exists new.
  unfold in_worker. by destruct (job s) as [r s'].
Qed.

Lemma adds_only_os_path_isdir P (p : string) : adds_only P (os_path_isdir p).
Proof. by apply adds_only_silent. Qed.

Lemma adds_only_os_makedirs P (p : string) : adds_only P (os_makedirs p).
Proof.
  apply adds_only_silent. intros s. unfold os_makedirs, bind, get_world.
  by destruct (_ || _).
Qed.

Lemma adds_only_open_w P (p : string) : adds_only P (open_w p).
Proof.
  apply adds_only_silent. intros s. unfold open_w, bind, get_world.
  by destruct (bool_decide _).
Qed.

Lemma adds_only_Pool P (n : Z) : P (EvPool n) -> adds_only P (Pool n).
Proof.
  intros Hn. unfold Pool. destruct (n <? 1)%Z.
  - apply adds_only_raise.
  - by apply adds_only_emit.
Qed.

End TraceFactsUnit.

(** ** The entry point *)

Section EntryFacts.

Variable pd_parse : string -> option DataFrame.
Variable pd_format : DataFrame -> string.
Variable abspath : string -> string.
Variable singleSampleCompass : SolveArgs -> World -> result unit * World.
Variable submitCompassTorque : TorqueArgs -> World -> result unit * World.
Variable init_logger : string -> World -> result unit * World.
Variable git_rev_parse : World -> result string.
Variable cpu_count : Z.
Variable completion_order : nat -> list nat.

Local Abbreviation entry' :=
  (entry pd_parse pd_format abspath singleSampleCompass submitCompassTorque
     init_logger git_rev_parse cpu_count completion_order).
Local Abbreviation job := (_parallel_map_fun singleSampleCompass init_logger).
Local Abbreviation collect := (collectCompassResults pd_parse pd_format).
Local Abbreviation solve := (call_solver singleSampleCompass).

Implicit Types (P : event -> Prop).

(** One step of a proof that a computation built from the primitives adds
    only events in [P]. *)
Local Ltac trace_step :=
  first
    [ apply adds_only_ret | apply adds_only_raise | apply adds_only_lift
    | apply adds_only_get_world | apply adds_only_modify_world
    | apply adds_only_os_path_isdir | apply adds_only_os_makedirs
    | apply adds_only_open_w | apply adds_only_try_except
    | apply adds_only_try_except_only
    | apply adds_only_for_each; intros
    | apply adds_only_bind; [|intros]
    | match goal with
      | |- adds_only _ (if ?b then _ else _) => destruct b
      | |- adds_only _ (match ?x with _ => _ end) => destruct x
      end ].

Lemma adds_only_read_table P (p : string) :
  adds_only P (read_table pd_parse p).
Proof. unfold read_table. repeat trace_step. Qed.

Lemma adds_only_collect P (data temp_dir out_dir : string) :
  adds_only P (collect data temp_dir out_dir).
Proof.
  unfold collectCompassResults, gather_results, join_and_output,
    gather_sample, append_table, to_csv.
  repeat (first [apply adds_only_read_table | trace_step]).
Qed.

Lemma adds_only_parseArgs P (ns : Namespace) :
  adds_only P (parseArgs abspath ns).
Proof. unfold parseArgs. repeat trace_step. Qed.

Lemma adds_only_log_versions P : adds_only P (log_versions git_rev_parse).
Proof. unfold log_versions. repeat trace_step. Qed.

Lemma adds_only_call_solver P (a : SolveArgs) :
  (forall w, P (EvSolve a w)) -> adds_only P (solve a).
Proof.
  intros Hp s. exists [EvSolve a (world s)]. unfold call_solver.
  destruct (singleSampleCompass a (world s)). split; [done|].
  by constructor.
Qed.

Lemma adds_only_call_torque P (a : TorqueArgs) :
  P (EvTorque a) -> adds_only P (call_torque submitCompassTorque a).
Proof.
  intros Hp s. exists [EvTorque a]. unfold call_torque.
  destruct (submitCompassTorque a (world s)). split; [done|].
  by constructor.
Qed.

Lemma adds_only_call_init_logger P (d : string) :
  (forall w, P (EvInitLogger d w)) ->
  adds_only P (call_init_logger init_logger d).
Proof.
  intros Hp s. exists [EvInitLogger d (world s)]. unfold call_init_logger.
  destruct (init_logger d (world s)). split; [done|].
  by constructor.
Qed.

Lemma adds_only_job P (i : nat) (data model : string)
    (media : option string) (temp_dir : string) (lambda_ : Q) :
  (forall d w, P (EvInitLogger d w)) ->
  (forall w, P (EvSolve (mkSolveArgs data model media
                           (sample_dir_of temp_dir i) lambda_ (Z.of_nat i))
                  w)) ->
  adds_only P (job i data model media temp_dir lambda_).
Proof.
  intros Hlog Hsolve. unfold _parallel_map_fun.
  repeat (first [ by apply adds_only_call_init_logger
                | by apply adds_only_call_solver
                | trace_step ]).
Qed.

(** What [parseArgs] returns when it returns. *)
Lemma parseArgs_inv (ns args : Namespace) (s s' : State) :
  parseArgs abspath ns s = (Ok args, s') ->
  args = mkNamespace (abspath (a_data ns)) (a_model ns)
           (Some (default "None" (a_media ns)))
           (abspath (a_output_dir ns)) (abspath (a_temp_dir ns))
           (a_torque_queue ns) (a_num_processes ns) (a_lambda ns)
           (a_single_sample ns) (a_collect ns) (a_test ns)
           (a_perplexity ns) (a_symmetric_kernel ns).
Proof.
  unfold parseArgs, bind, modify_world, raise, ret.
  destruct (Qlt_le_dec (a_lambda ns) 0); [done|].
  destruct (Qlt_le_dec 1 (a_lambda ns)); [done|].
  intros [= <- _]. by destruct (a_media ns).
Qed.

(** Every event of a run carries the parsed arguments. *)
Lemma entry_events (ns : Namespace) :
  adds_only (entry_event abspath cpu_count ns) (entry' ns).
Proof.
  unfold entry. apply adds_only_bind_run; [apply adds_only_parseArgs|].
  intros s args s' ->%parseArgs_inv. cbn.
  apply adds_only_bind; [apply adds_only_log_versions|]. intros _.
  destruct (a_single_sample ns).
  { by apply adds_only_call_solver. }
  destruct (a_torque_queue ns) eqn:Hq.
  { by apply adds_only_call_torque. }
  destruct (a_collect ns); [apply adds_only_collect|].
  apply adds_only_bind; [apply adds_only_read_table|]. intros data.
  apply adds_only_bind; [by apply adds_only_Pool|]. intros _.
  apply adds_only_bind; [|intros; apply adds_only_collect].
  unfold imap_unordered_loop. apply adds_only_for_each. intros i _.
  apply adds_only_bind; [|intros; by apply adds_only_emit].
  apply adds_only_in_worker. by apply adds_only_job.
Qed.

(** *** Fail-fast *)

Local Abbreviation returned := (solver_returned singleSampleCompass).
Local Abbreviation ff := (fail_fast singleSampleCompass).









(** *** Arguments handed on *)

(** C5 (amended). With no media given, [parseArgs] puts the string
    ['None'] in its place, and every call of the solver or of the queue
    submission made by the run, in single-sample mode, in the local pool
    or on the queue path, receives that string as its media. *)
Theorem media_sentinel_is_the_string_None :
  media_sentinel_claim pd_parse pd_format abspath singleSampleCompass
    submitCompassTorque init_logger git_rev_parse cpu_count
    completion_order "None".
Proof.
  intros ns s Hmedia Htr.
  destruct (entry_events ns s) as (new & Ht & Hall).
  rewrite Ht, Htr. simpl. eapply Forall_impl; [exact Hall|].
  intros ev Hev m Hrec. unfold entry_event in Hev.
  rewrite Hmedia in Hev. destruct ev; simpl in *; try done.
  - injection Hrec as <-. by destruct Hev as (_ & _ & -> & _).
  - injection Hrec as <-. by destruct Hev as (_ & _ & -> & _).
Qed.



Lemma parseArgs_with_num_processes (n : option Z) (ns : Namespace)
    (s : State) :
  parseArgs abspath (with_num_processes n ns) s =
  match parseArgs abspath ns s with
  | (Ok args, s') => (Ok (with_num_processes n args), s')
  | (Raise e, s') => (Raise e, s')
  end.
Proof.
  unfold parseArgs, bind, modify_world, raise, ret. simpl.
  destruct (Qlt_le_dec (a_lambda ns) 0); [done|].
  by destruct (Qlt_le_dec 1 (a_lambda ns)).
Qed.


(** *** Single-sample mode against a pool job *)

(** [parseArgs] touches the flags of the [globals] module only, and
    returns exactly when the smoothing factor is within bounds. *)
Lemma parseArgs_run (ns : Namespace) (s : State) :
  exists r w',
    parseArgs abspath ns s = (r, mkState w' (trace s)) /\
    files w' = files (world s) /\ dirs w' = dirs (world s) /\
    sys_stdout w' = sys_stdout (world s) /\
    sys_stderr w' = sys_stderr (world s) /\
    (Qle 0 (a_lambda ns) -> Qle (a_lambda ns) 1 -> is_ok r = true).
Proof.
  unfold parseArgs, bind, modify_world, raise, ret.
  destruct (Qlt_le_dec (a_lambda ns) 0) as [Hlt0|Hge0].
  { eexists _, _. split; [reflexivity|]. repeat split.
    intros H0 _. exfalso. by apply (Qlt_not_le _ _ Hlt0). }
  destruct (Qlt_le_dec 1 (a_lambda ns)) as [Hgt1|Hle1].
  { eexists _, _. split; [reflexivity|]. repeat split.
    intros _ H1. exfalso. by apply (Qlt_not_le _ _ Hgt1). }
  eexists _, _. split; [reflexivity|]. by repeat split.
Qed.

Lemma log_versions_run (s : State) :
  log_versions git_rev_parse s =
  (match git_rev_parse (world s) with
   | Ok _ | Raise CalledProcessError => Ok tt
   | Raise e => Raise e
   end, s).
Proof.
  unfold log_versions, try_except_only, bind, get_world, lift, ret.
  destruct (git_rev_parse (world s)) as [c|e]; [done|]. by destruct e.
Qed.

Lemma single_sample_events (ns : Namespace) (s : State) (sample_index : Z) :
  a_single_sample ns = Some sample_index ->
  exists new,
    trace (snd (entry' ns s)) = trace s ++ new /\
    length new <= 1 /\
    Forall (direct_solver_call abspath ns (world s) sample_index) new /\
    (Qle 0 (a_lambda ns) -> Qle (a_lambda ns) 1 ->
     (forall w e, git_rev_parse w = Raise e -> e = CalledProcessError) ->
     length new = 1).
Proof.
  intros Hsingle. unfold entry, bind.
  destruct (parseArgs_run ns s)
    as (r & w' & Hp & Hfiles & Hdirs & Hout & Herr & Hok).
  rewrite Hp. destruct r as [args|e].
  2:{ exists []. cbn [snd trace]. rewrite app_nil_r.
      repeat split; [simpl; lia | constructor|].
      intros H0 H1 _. by specialize (Hok H0 H1). }
  apply parseArgs_inv in Hp as ->. rewrite log_versions_run.
  assert (forall st : State,
            world st = w' -> trace st = trace s ->
            exists new,
              trace (snd (solve (mkSolveArgs (abspath (a_data ns))
                                   (a_model ns)
                                   (Some (default "None" (a_media ns)))
                                   (abspath (a_temp_dir ns)) (a_lambda ns)
                                   sample_index) st))
                = trace s ++ new /\
              length new = 1 /\
              Forall (direct_solver_call abspath ns (world s) sample_index)
                     new) as Hcall.
  { intros st Hw Ht. unfold call_solver.
    destruct (singleSampleCompass _ (world st)) as [r wa].
    eexists [_]. cbn [snd trace]. rewrite Ht. split; [reflexivity|].
    split; [done|]. constructor; [|done]. simpl. by rewrite Hw. }
  cbn [a_single_sample a_data a_model a_media a_temp_dir a_lambda].
  rewrite Hsingle.
  destruct (git_rev_parse w') as [c|e] eqn:Hgit; cbn [world].
  - rewrite Hgit.
    destruct (Hcall (mkState w' (trace s)) eq_refl eq_refl)
      as (new & Ht & Hlen & Hall).
    exists new. rewrite Hlen. repeat split; [done | lia | done].
  - rewrite Hgit.
    assert (e = CalledProcessError \/ e <> CalledProcessError) as [->|Hne]
      by (destruct e; auto; right; congruence).
    + destruct (Hcall (mkState w' (trace s)) eq_refl eq_refl)
        as (new & Ht & Hlen & Hall).
      exists new. rewrite Hlen. repeat split; [done | lia | done].
    + exists []. destruct e; try done; cbn [snd trace];
        rewrite app_nil_r; (repeat split; [simpl; lia | constructor|]);
        intros _ _ Hg; by specialize (Hg _ _ Hgit).
Qed.

(** Once the sample's directory is there, the rest of a pool job opens
    the capture files, points the streams at them and hands over. *)
Lemma job_tail_events (i : nat) (data model : string)
    (media : option string) (temp_dir : string) (lambda_ : Q) (s : State) :
  let sample_dir := sample_dir_of temp_dir i in
  let out_file := os_path_join sample_dir "out.log" in
  let err_file := os_path_join sample_dir "err.log" in
  sample_dir ∈ dirs (world s) ->
  exists new,
    trace (snd ((open_w out_file ;;;
                 open_w err_file ;;;
                 modify_world (set_stdout (ToFile out_file)) ;;;
                 modify_world (set_stderr (ToFile err_file)) ;;;
                 call_init_logger init_logger sample_dir ;;;
                 solve (mkSolveArgs data model media sample_dir lambda_
                          (Z.of_nat i))) s))
      = trace s ++ new /\
    Forall (pooled_solver_call init_logger temp_dir i) new.
Proof.
  intros sample_dir out_file err_file Hdir.
  unfold open_w, get_world, raise, ret, modify_world, bind.
  cbn [world trace].
  destruct (bool_decide (out_file ∈ dirs (world s))).
  { exists []. by rewrite app_nil_r. }
  cbn [world trace dirs set_files].
  destruct (bool_decide (err_file ∈ dirs (world s))).
  { exists []. by rewrite app_nil_r. }
  cbn [world trace dirs set_files files].
  set (w1 := set_stderr _ _).
  assert (prepared_for_sample temp_dir i w1) as Hprep.
  { unfold prepared_for_sample, w1. cbn. fold sample_dir.
    fold out_file. fold err_file. split; [done|].
    split; [|split; [|done]].
    - rewrite lookup_insert. case_decide; [by eexists|].
      rewrite lookup_insert_eq. by eexists.
    - rewrite lookup_insert_eq. by eexists. }
  unfold call_init_logger. cbn [world trace].
  destruct (init_logger sample_dir w1) as [[[]|e] w2] eqn:Hlog.
  - unfold call_solver. cbn [world trace].
    destruct (singleSampleCompass _ w2) as [r w3].
    eexists [_; _]. cbn [snd trace]. rewrite <- app_assoc.
    split; [reflexivity|]. constructor; [by split|].
    constructor; [|done]. simpl. split; [done|]. split; [done|].
    exists w1. split; [done|]. fold sample_dir. by rewrite Hlog.
  - eexists [_]. split; [reflexivity|]. constructor; [by split | done].
Qed.

Lemma job_events (i : nat) (data model : string) (media : option string)
    (temp_dir : string) (lambda_ : Q) :
  adds_only (pooled_solver_call init_logger temp_dir i)
    (job i data model media temp_dir lambda_).
Proof.
  intros s. unfold _parallel_map_fun.
  unfold bind at 1. unfold os_path_isdir, bind at 1, get_world, ret.
  cbn [world trace]. unfold bind at 1.
  destruct (bool_decide (_ ∈ dirs (world s))) eqn:Hd.
  - apply bool_decide_eq_true in Hd. by apply job_tail_events.
  - unfold os_makedirs, bind at 1, get_world, raise, modify_world.
    rewrite Hd. cbn [world trace orb].
    destruct (bool_decide (is_Some _)).
    { exists []. by rewrite app_nil_r. }
    match goal with
    | |- context [mkState ?w (trace s)] =>
        destruct (job_tail_events i data model media temp_dir lambda_
                    (mkState w (trace s))) as (new & Ht & Hall)
    end.
    { simpl. apply elem_of_union_l. by apply elem_of_singleton. }
    by exists new.
Qed.

(** C10. In single-sample mode the run makes at most one call, a solver
    call whose destination directory is the temporary directory itself,
    and the solver starts with the files, the directories and the two
    standard streams the run started with: no directory was created and
    no stream redirected.  (The call is made whenever the smoothing factor
    is within bounds and the version probe does not fail.)  A job of the
    local pool instead gives the solver the directory [sample<i>] under
    the temporary directory, after creating it, opening [out.log] and
    [err.log] in it and pointing the two streams at them. *)
Theorem single_sample_runs_in_temp_dir (ns : Namespace) (s : State)
    (sample_index : Z) :
  a_single_sample ns = Some sample_index ->
  (exists new,
     trace (snd (entry' ns s)) = trace s ++ new /\
     length new <= 1 /\
     Forall (direct_solver_call abspath ns (world s) sample_index) new /\
     (Qle 0 (a_lambda ns) -> Qle (a_lambda ns) 1 ->
      (forall w e, git_rev_parse w = Raise e -> e = CalledProcessError) ->
      length new = 1)) /\
  (forall i data model media temp_dir lambda_,
     adds_only (pooled_solver_call init_logger temp_dir i)
       (job i data model media temp_dir lambda_)).
Proof.
  intros Hsingle. split.
  - by apply single_sample_events.
  - intros. apply job_events.
Qed.

End EntryFacts.

(** ** Concrete runs *)

Section Runs.

Import Demo.

(** A decidable proposition that evaluates to true. *)
Local Ltac evaluated :=
  match goal with
  | |- ?P => apply (bool_decide_eq_true_1 P); vm_compute; reflexivity
  end.






(** C4, the claim as stated: with a directory where [reactions.txt] is to
    be written, the secretions tables join and their output path is free,
    yet the run ends on the reactions and writes no [secretions.txt]. *)
Lemma blocked_reactions_block_secretions :
  ~ kinds_independent_claim Tsv.parse Tsv.format.
Proof.
  intros Hclaim.
  specialize (Hclaim "/m.tsv" "/tmp" "/out" (start blocked)
                (mkState (after_setup blocked "/out") [])
                (gathered_of Tsv.parse blocked expression "/tmp")
                Secretions
                (outer_join (tables_of Tsv.parse blocked expression "/tmp"
                               Secretions))).
  assert (files (world (snd (collect blocked)))
            !! os_path_join "/out" (file_name Secretions) = None) as Hnone
    by (vm_compute; reflexivity).
  unfold collect in Hnone. rewrite Hclaim in Hnone; [discriminate| | |].
  - apply (gather_results_ok Tsv.parse "/m.tsv" "/tmp" "/out"
             (start blocked) expression).
    + left. evaluated.
    + vm_compute. reflexivity.
  - vm_compute. reflexivity.
  - evaluated.
Qed.

Lemma blocked_run_stops_at_reactions :
  collect blocked
    = (Raise IsADirectoryError, mkState (after_setup blocked "/out") []) /\
  files (after_setup blocked "/out") = files blocked.
Proof.
  destruct (first_failing_kind_ends_run Tsv.parse Tsv.format "/m.tsv" "/tmp"
              "/out" (start blocked)
              (mkState (after_setup blocked "/out") [])
              (gathered_of Tsv.parse blocked expression "/tmp"))
    as (Hfirst & _ & _).
  - apply (gather_results_ok Tsv.parse "/m.tsv" "/tmp" "/out"
             (start blocked) expression).
    + left. evaluated.
    + vm_compute. reflexivity.
  - apply (Hfirst IsADirectoryError
             (mkState (after_setup blocked "/out") [])).
    vm_compute. reflexivity.
Defined.

(** C5, the claim as stated: in single-sample mode with no media given the
    solver receives the string ['None'], not ["no media specified"]. *)
Lemma solver_receives_None_string :
  ~ media_sentinel_claim Tsv.parse Tsv.format (fun p => p) solver_ok
      torque_ok logger_ok git_ok units last_first "no media specified".
Proof.
  intros Hclaim.
  specialize (Hclaim (namespace (Some 1%Z) None) (start partial)
                eq_refl eq_refl).
  assert (trace (snd (run solver_ok (namespace (Some 1%Z) None) partial))
          = [EvSolve (mkSolveArgs "/m.tsv" "RECON1_mat" (Some "None")
                        "/tmp" 0 1) partial]) as Htrace
    by (vm_compute; reflexivity).
  unfold run in Htrace. rewrite Htrace in Hclaim.
  apply Forall_inv in Hclaim. specialize (Hclaim _ eq_refl).
  discriminate.
Qed.

Lemma solver_receives_None_in_local_run :
  Forall (fun ev => forall m, media_received ev = Some m -> m = Some "None")
         (trace (snd (run solver_ok (namespace None None) partial))).
Proof.
  apply (media_sentinel_is_the_string_None Tsv.parse Tsv.format
           (fun p => p) solver_ok torque_ok logger_ok git_ok units
           last_first (namespace None None) (start partial));
    reflexivity.
Defined.





Lemma relabelled_reactions_keep_file_label :
  columns relabelled_merged = ["cellA"; "s2"; "s3"].
Proof.
  destruct (merged_labels_come_from_files Tsv.parse "/m.tsv" "/tmp" "/out"
              (start relabelled)
              (mkState (after_setup relabelled "/out") [])
              (gathered_of Tsv.parse relabelled expression "/tmp")
              Reactions relabelled_merged)
    as (e & He & Hcols & _).
  - apply (gather_results_ok Tsv.parse "/m.tsv" "/tmp" "/out"
             (start relabelled) expression).
    + right. reflexivity.
    + vm_compute. reflexivity.
  - vm_compute. reflexivity.
  - assert (columns e = ["s1"; "s2"; "s3"]) as Hheader.
    { assert (read_table_in Tsv.parse (world (start relabelled)) "/m.tsv"
              = Ok expression) as He' by (vm_compute; reflexivity).
      rewrite He' in He. by injection He as <-. }
    rewrite Hcols, Hheader. vm_compute. reflexivity.
Defined.

Lemma single_sample_call_is_direct :
  exists a w,
    trace (snd (run solver_ok (namespace (Some 1%Z) None) partial))
      = [EvSolve a w] /\
    sa_directory a = "/tmp" /\
    dirs w = dirs partial /\ files w = files partial /\
    sys_stdout w = Console /\ sys_stderr w = Console.
Proof.
  destruct (single_sample_runs_in_temp_dir Tsv.parse Tsv.format
              (fun p => p) solver_ok torque_ok logger_ok git_ok units
              last_first (namespace (Some 1%Z) None) (start partial) 1%Z
              eq_refl)
    as ((new & Ht & _ & Hall & Hone) & _).
  assert (length new = 1) as Hlen.
  { apply Hone; [done | done | discriminate]. }
  destruct new as [|ev [|? ?]]; try discriminate Hlen.
  apply Forall_inv in Hall. destruct ev as [a w| | | |]; try done.
  destruct Hall as (Hd & _ & Hf & Hds & Hout & Herr).
  exists a, w. unfold run. rewrite Ht. by repeat split.
Defined.

End Runs.

(** ** Further properties of the collector *)

Section CollectorEdges.

Variable pd_parse : string -> option DataFrame.
Variable pd_format : DataFrame -> string.

Local Abbreviation collect := (collectCompassResults pd_parse pd_format).

(** X1. When the output path names an existing regular file, the run raises
    [FileExistsError] from [os.makedirs] and leaves the state as it found
    it: the matrix is not even read. *)
Theorem collect_refuses_file_as_output_dir (data temp_dir out_dir : string)
    (s : State) :
  out_dir ∉ dirs (world s) ->
  is_Some (files (world s) !! out_dir) ->
  collect data temp_dir out_dir s = (Raise FileExistsError, s).
Proof.
  intros Hd Hf. apply collect_gather_raise. rewrite gather_results_run.
  by rewrite (bool_decide_eq_false_2 _ Hd), (bool_decide_eq_true_2 _ Hf).
Qed.


(** What a run that returned has done. *)
Lemma collect_ok_inv (data temp_dir out_dir : string) (s s1 : State) :
  collect data temp_dir out_dir s = (Ok tt, s1) ->
  exists e mr ms mu,
    read_table_in pd_parse (world s) data = Ok e /\
    concat_axis1 (tables_of pd_parse (world s) e temp_dir Reactions) = Ok mr /\
    concat_axis1 (tables_of pd_parse (world s) e temp_dir Secretions)
      = Ok ms /\
    concat_axis1 (tables_of pd_parse (world s) e temp_dir Uptake) = Ok mu /\
    s1 = mkState
           (set_files
              (<[os_path_join out_dir "uptake.txt" := pd_format mu]>
                 (<[os_path_join out_dir "secretions.txt" := pd_format ms]>
                    (<[os_path_join out_dir "reactions.txt" := pd_format mr]>
                       (files (world s)))))
              (after_setup (world s) out_dir))
           (trace s).
Proof.
  intros Hrun.
  destruct (gather_results pd_parse data temp_dir out_dir s)
    as [[g|x] sA] eqn:Hg.
  2:{ by rewrite (collect_gather_raise _ _ _ _ _ _ _ _ Hg) in Hrun. }
  rewrite (collect_run _ _ _ _ _ _ _ _ Hg) in Hrun.
  apply gather_results_inv in Hg as (_ & -> & e & He & ->).
  cbn [world trace reactions_all secretions_all uptake_all gathered_of]
    in Hrun.
  unfold join_outcome in Hrun.
  destruct (concat_axis1 (tables_of _ _ _ _ Reactions)) as [mr|] eqn:Hmr;
    [|done].
  destruct (bool_decide _); [done|]. cbn [dirs set_files files] in Hrun.
  destruct (concat_axis1 (tables_of _ _ _ _ Secretions)) as [ms|] eqn:Hms;
    [|done].
  destruct (bool_decide _); [done|]. cbn [dirs set_files files] in Hrun.
  destruct (concat_axis1 (tables_of _ _ _ _ Uptake)) as [mu|] eqn:Hmu;
    [|done].
  destruct (bool_decide _); [done|]. injection Hrun as <-.
  exists e, mr, ms, mu. rewrite files_after_setup. by repeat split.
Qed.

(** What the three output paths hold once the three tables are written. *)
Lemma three_outputs_lookup (out_dir : string) (F : gmap string string)
    (cr cs cu : string) (k : kind) :
  <[os_path_join out_dir "uptake.txt" := cu]>
    (<[os_path_join out_dir "secretions.txt" := cs]>
       (<[os_path_join out_dir "reactions.txt" := cr]> F))
    !! os_path_join out_dir (file_name k)
  = Some (match k with Reactions => cr | Secretions => cs | Uptake => cu end).
Proof.
  destruct k; cbn [file_name].
  - rewrite lookup_insert_ne
      by (intros H; by apply (out_path_inj out_dir Uptake Reactions) in H).
    rewrite lookup_insert_ne
      by (intros H; by apply (out_path_inj out_dir Secretions Reactions)
                        in H).
    apply lookup_insert_eq.
  - rewrite lookup_insert_ne
      by (intros H; by apply (out_path_inj out_dir Uptake Secretions) in H).
    apply lookup_insert_eq.
  - apply lookup_insert_eq.
Qed.

(** X3. A run that returns has read a matrix with at least one sample and
    has written, for each of the three kinds, the text of the join of the
    tables gathered for that kind, replacing whatever the output file held;
    the output directory exists afterwards. *)
Theorem collect_ok_writes_joins (data temp_dir out_dir : string)
    (s s1 : State) :
  collect data temp_dir out_dir s = (Ok tt, s1) ->
  exists e,
    read_table_in pd_parse (world s) data = Ok e /\
    0 < length (columns e) /\
    out_dir ∈ dirs (world s1) /\
    forall k, exists merged,
      concat_axis1 (tables_of pd_parse (world s) e temp_dir k) = Ok merged /\
      files (world s1) !! os_path_join out_dir (file_name k)
        = Some (pd_format merged).
Proof.
  intros (e & mr & ms & mu & He & Hmr & Hms & Hmu & ->)%collect_ok_inv.
  exists e. split; [done|]. split; [|split].
  - destruct (columns e) as [|c cs] eqn:Hc; [|simpl; lia].
    unfold tables_of in Hmr. by rewrite Hc in Hmr.
  - apply out_dir_after_setup.
  - intros k. cbn [world files set_files]. rewrite three_outputs_lookup.
    destruct k; eauto.
Qed.

Lemma set_files_id (w : World) : set_files (files w) w = w.
Proof. by destruct w. Qed.

(** The shape of the state a run ends in, whatever its outcome. *)
Lemma collect_state_shape (data temp_dir out_dir : string) (s s1 : State)
    (r : result unit) :
  collect data temp_dir out_dir s = (r, s1) ->
  exists F wA,
    s1 = mkState (set_files F wA) (trace s) /\
    (wA = world s \/ wA = after_setup (world s) out_dir).
Proof.
  intros Hrun.
  destruct (gather_results pd_parse data temp_dir out_dir s)
    as [[g|x] sA] eqn:Hg.
  2:{ rewrite (collect_gather_raise _ _ _ _ _ _ _ _ Hg) in Hrun.
      injection Hrun as _ <-. rewrite gather_results_run in Hg.
      destruct (_ || _).
      - cbv zeta in Hg. cbn [world] in Hg.
        destruct (read_table_in _ _ _); [done|]. injection Hg as _ <-.
        exists (files (after_setup (world s) out_dir)),
               (after_setup (world s) out_dir).
        split; [|by right]. by rewrite set_files_id.
      - injection Hg as _ <-. exists (files (world s)), (world s).
        split; [|by left]. rewrite set_files_id. by destruct s. }
  rewrite (collect_run _ _ _ _ _ _ _ _ Hg) in Hrun.
  apply gather_results_inv in Hg as (_ & -> & _).
  cbn [world trace] in Hrun. unfold join_outcome in Hrun.
  repeat match type of Hrun with
         | context [match concat_axis1 ?t with _ => _ end] =>
             destruct (concat_axis1 t)
         | context [if bool_decide ?P then _ else _] =>
             destruct (bool_decide P)
         end;
    injection Hrun as _ <-;
    first [ by eexists _, (after_setup (world s) out_dir);
               split; [reflexivity | by right]
          | exists (files (after_setup (world s) out_dir)),
                   (after_setup (world s) out_dir);
            split; [|by right]; by rewrite set_files_id ].
Qed.

(** X4. Whatever its outcome, a run makes no call, leaves the two standard
    streams and the flags alone, removes no directory, and changes no file
    but the three output files. *)
Theorem collect_touches_only_outputs (data temp_dir out_dir : string)
    (s s1 : State) (r : result unit) :
  collect data temp_dir out_dir s = (r, s1) ->
  trace s1 = trace s /\
  sys_stdout (world s1) = sys_stdout (world s) /\
  sys_stderr (world s1) = sys_stderr (world s) /\
  TEST_MODE (world s1) = TEST_MODE (world s) /\
  SYMMETRIC_KERNEL (world s1) = SYMMETRIC_KERNEL (world s) /\
  PERPLEXITY (world s1) = PERPLEXITY (world s) /\
  (forall p, p ∈ dirs (world s) -> p ∈ dirs (world s1)) /\
  (forall p, (forall k, p <> os_path_join out_dir (file_name k)) ->
             files (world s1) !! p = files (world s) !! p).
Proof.
  intros Hrun.
  destruct (collect_state_shape _ _ _ _ _ _ Hrun) as (F & wA & Hs1 & HwA).
  assert (forall p, p ∈ dirs (world s) ->
            p ∈ dirs (after_setup (world s) out_dir)) as Hdirs.
  { intros p Hp. unfold after_setup. destruct (bool_decide _); [done|].
    simpl. by apply elem_of_union_r. }
  assert (sys_stdout wA = sys_stdout (world s) /\
          sys_stderr wA = sys_stderr (world s) /\
          TEST_MODE wA = TEST_MODE (world s) /\
          SYMMETRIC_KERNEL wA = SYMMETRIC_KERNEL (world s) /\
          PERPLEXITY wA = PERPLEXITY (world s)) as (? & ? & ? & ? & ?).
  { destruct HwA as [->| ->]; [done|]. unfold after_setup.
    by destruct (bool_decide _). }
  pose proof (fun p => collect_files_elsewhere pd_parse pd_format data
                         temp_dir out_dir s s1 r p Hrun) as Hfiles.
  subst s1. cbn [world trace] in *. split; [done|].
  do 5 (split; [done|]). split; [|exact Hfiles].
  intros p Hp. cbn. destruct HwA as [->| ->]; [done | by apply Hdirs].
Qed.




End CollectorEdges.

(** ** A pool job, step by step *)

Section JobEdges.

Variable singleSampleCompass : SolveArgs -> World -> result unit * World.
Variable init_logger : string -> World -> result unit * World.

Local Abbreviation job :=
  (_parallel_map_fun singleSampleCompass init_logger).

Lemma os_makedirs_run (p : string) (s : State) :
  os_makedirs p s =
  if bool_decide (p ∈ dirs (world s))
     || bool_decide (is_Some (files (world s) !! p))
  then (Raise FileExistsError, s)
  else (Ok tt, mkState (set_dirs ({[p]} ∪ dirs (world s)) (world s))
                 (trace s)).
Proof.
  unfold os_makedirs, bind, get_world, raise, modify_world.
  by destruct (_ || _).
Qed.

Lemma open_w_run (p : string) (s : State) :
  open_w p s =
  if bool_decide (p ∈ dirs (world s)) then (Raise IsADirectoryError, s)
  else (Ok tt, mkState (set_files (<[p := ""]> (files (world s))) (world s))
                 (trace s)).
Proof.
  unfold open_w, bind, get_world, raise, modify_world.
  by destruct (bool_decide _).
Qed.

(** The job, one step unfolded: the directory is created when it is not
    there, and the rest runs in the state this leaves. *)
Lemma job_unfold (i : nat) (data model : string) (media : option string)
    (temp_dir : string) (lambda_ : Q) (s : State) :
  let sample_dir := sample_dir_of temp_dir i in
  let out_file := os_path_join sample_dir "out.log" in
  let err_file := os_path_join sample_dir "err.log" in
  job i data model media temp_dir lambda_ s =
  match (if bool_decide (sample_dir ∈ dirs (world s)) then (Ok tt, s)
         else os_makedirs sample_dir s) with
  | (Raise e, s1) => (Raise e, s1)
  | (Ok _, s1) =>
      match open_w out_file s1 with
      | (Raise e, s2) => (Raise e, s2)
      | (Ok _, s2) =>
          match open_w err_file s2 with
          | (Raise e, s3) => (Raise e, s3)
          | (Ok _, s3) =>
              let w1 := set_stderr (ToFile err_file)
                          (set_stdout (ToFile out_file) (world s3)) in
              let '(r1, w2) := init_logger sample_dir w1 in
              match r1 with
              | Raise e =>
                  (Raise e,
                   mkState w2 (trace s3 ++ [EvInitLogger sample_dir w1]))
              | Ok _ =>
                  let '(r2, w3) :=
                    singleSampleCompass
                      (mkSolveArgs data model media sample_dir lambda_
                         (Z.of_nat i)) w2 in
                  (r2, mkState w3
                         (trace s3 ++
                          [EvInitLogger sample_dir w1;
                           EvSolve (mkSolveArgs data model media sample_dir
                                      lambda_ (Z.of_nat i)) w2]))
              end
          end
      end
  end.
Proof.
  intros sample_dir out_file err_file. unfold _parallel_map_fun.
  fold sample_dir. fold out_file. fold err_file.
  unfold bind at 1. unfold os_path_isdir, bind at 1, get_world, ret.
  cbn [world trace]. unfold bind at 1.
  destruct (bool_decide (sample_dir ∈ dirs (world s)));
    [|destruct (os_makedirs sample_dir s) as [[[]|e] s1]; [|done]].
  all: unfold bind at 1.
  all: destruct (open_w out_file _) as [[[]|e] s2]; [|done].
  all: unfold bind at 1.
  all: destruct (open_w err_file s2) as [[[]|e] s3]; [|done].
  all: unfold bind, modify_world, call_init_logger, call_solver.
  all: cbn [world trace].
  all: destruct (init_logger _ _) as [[[]|e] w2]; [|done].
  all: cbn [world trace]; destruct (singleSampleCompass _ _) as [r2 w3].
  all: by rewrite <- app_assoc.
Qed.



(** X18. When a regular file sits at the path of the sample's work
    directory, the job raises [FileExistsError] at once: nothing is
    created, no stream is redirected and no call is made. *)
Theorem job_refuses_file_as_work_directory (i : nat) (data model : string)
    (media : option string) (temp_dir : string) (lambda_ : Q) (s : State) :
  sample_dir_of temp_dir i ∉ dirs (world s) ->
  is_Some (files (world s) !! sample_dir_of temp_dir i) ->
  job i data model media temp_dir lambda_ s = (Raise FileExistsError, s).
Proof.
  intros Hd Hfile. rewrite job_unfold. cbv zeta.
  rewrite (bool_decide_eq_false_2 _ Hd), os_makedirs_run.
  rewrite (bool_decide_eq_false_2 _ Hd), (bool_decide_eq_true_2 _ Hfile).
  done.
Qed.

(** X19. When the work directory is there and a capture path names a
    directory, the job raises [IsADirectoryError] before any call is made
    and with no stream redirected; when it is [err.log] that is the
    directory, [out.log] has been truncated already. *)
Theorem job_refuses_directory_as_capture_file (i : nat)
    (data model : string) (media : option string) (temp_dir : string)
    (lambda_ : Q) (s : State) :
  let sample_dir := sample_dir_of temp_dir i in
  let out_file := os_path_join sample_dir "out.log" in
  let err_file := os_path_join sample_dir "err.log" in
  sample_dir ∈ dirs (world s) ->
  out_file ∈ dirs (world s) \/ err_file ∈ dirs (world s) ->
  exists s1,
    job i data model media temp_dir lambda_ s = (Raise IsADirectoryError, s1)
    /\ trace s1 = trace s
    /\ dirs (world s1) = dirs (world s)
    /\ sys_stdout (world s1) = sys_stdout (world s)
    /\ sys_stderr (world s1) = sys_stderr (world s)
    /\ (out_file ∈ dirs (world s) -> s1 = s)
    /\ (out_file ∉ dirs (world s) ->
        files (world s1) = <[out_file := ""]> (files (world s))).
Proof.
  intros sample_dir out_file err_file Hd Hcapture.
  rewrite job_unfold. cbv zeta. fold sample_dir. fold out_file.
  fold err_file. rewrite (bool_decide_eq_true_2 _ Hd), open_w_run.
  destruct (decide (out_file ∈ dirs (world s))) as [Hout|Hout].
  { rewrite (bool_decide_eq_true_2 _ Hout). exists s.
    do 5 (split; [done|]). by split. }
  destruct Hcapture as [?|Herr]; [done|].
  rewrite (bool_decide_eq_false_2 _ Hout), open_w_run.
  cbn [world trace dirs set_files].
  rewrite (bool_decide_eq_true_2 _ Herr).
  eexists. split; [reflexivity|]. cbn. do 4 (split; [done|]). by split.
Qed.

End JobEdges.

Section SampleDirectories.

(** X20. Two samples never share a work directory: the directories
    [sample<i>] and [sample<j>] under one temporary directory differ
    whenever the indices do. *)
Theorem sample_directories_differ (temp_dir : string) (i j : nat) :
  i <> j -> sample_dir_of temp_dir i <> sample_dir_of temp_dir j.
Proof.
  intros Hij Heq. apply Hij. unfold sample_dir_of in Heq.
  apply os_path_join_inj in Heq; [|done..].
  apply (inj (String.app "sample")) in Heq.
  by apply (inj pretty) in Heq.
Qed.

End SampleDirectories.

(** ** Further properties of the entry point *)

Section EntryEdges.

Variable pd_parse : string -> option DataFrame.
Variable pd_format : DataFrame -> string.
Variable abspath : string -> string.
Variable singleSampleCompass : SolveArgs -> World -> result unit * World.
Variable submitCompassTorque : TorqueArgs -> World -> result unit * World.
Variable init_logger : string -> World -> result unit * World.
Variable git_rev_parse : World -> result string.
Variable cpu_count : Z.
Variable completion_order : nat -> list nat.

Local Abbreviation entry_with git :=
  (entry pd_parse pd_format abspath singleSampleCompass submitCompassTorque
     init_logger git cpu_count completion_order).
Local Abbreviation entry' := (entry_with git_rev_parse).
Local Abbreviation job := (_parallel_map_fun singleSampleCompass init_logger).
Local Abbreviation collect := (collectCompassResults pd_parse pd_format).


Lemma parseArgs_ok (ns : Namespace) (s : State) :
  Qle 0 (a_lambda ns) -> Qle (a_lambda ns) 1 ->
  parseArgs abspath ns s
  = (Ok (parsed abspath ns), mkState (flags_set ns (world s)) (trace s)).
Proof.
  intros H0 H1.
  unfold parseArgs, bind, modify_world, raise, ret, flags_set, parsed.
  destruct (Qlt_le_dec (a_lambda ns) 0) as [Hlt0|_].
  { exfalso. by apply (Qlt_not_le _ _ Hlt0). }
  destruct (Qlt_le_dec 1 (a_lambda ns)) as [Hgt1|_].
  { exfalso. by apply (Qlt_not_le _ _ Hgt1). }
  cbn. by destruct (a_media ns).
Qed.

(** [parseArgs] does not look at the queue, at [--collect] or at the
    number of processes. *)
Lemma parseArgs_with_modes (q : option string) (c : bool) (n : option Z)
    (ns : Namespace) (s : State) :
  parseArgs abspath (with_modes q c n ns) s =
  match parseArgs abspath ns s with
  | (Ok args, s') => (Ok (with_modes q c n args), s')
  | (Raise e, s') => (Raise e, s')
  end.
Proof.
  unfold parseArgs, bind, modify_world, raise, ret. simpl.
  destruct (Qlt_le_dec (a_lambda ns) 0); [done|].
  by destruct (Qlt_le_dec 1 (a_lambda ns)).
Qed.

Lemma read_table_in_flags_set (ns : Namespace) (w : World) (p : string) :
  read_table_in pd_parse (flags_set ns w) p = read_table_in pd_parse w p.
Proof. by apply read_table_in_ext. Qed.

Lemma log_versions_tolerated (git : World -> result string) (s : State) :
  tolerated (git (world s)) -> log_versions git s = (Ok tt, s).
Proof.
  intros Ht. rewrite log_versions_run.
  destruct (git (world s)) as [c|e]; [done|]. by destruct e.
Qed.

(** X8. A media named [None] on the command line cannot be told from no
    media at all: the two runs are the same. *)
Theorem media_named_None_is_no_media (ns : Namespace) (s : State) :
  entry' (with_media (Some "None") ns) s = entry' (with_media None ns) s.
Proof.
  unfold entry, bind.
  assert (parseArgs abspath (with_media (Some "None") ns) s
          = parseArgs abspath (with_media None ns) s) as ->; [|done].
  unfold parseArgs, bind, modify_world, raise, ret. reflexivity.
Qed.

(** X9. Every call a run makes carries the parsed arguments: the solver
    gets the absolute matrix path, the model, the media as given (or the
    string ['None']) and the smoothing factor; the queue submission gets
    these and the queue name; the pool is created with the clamped number
    of processes. *)
Theorem calls_carry_parsed_arguments (ns : Namespace) (s : State) :
  trace s = [] ->
  Forall (entry_event abspath cpu_count ns) (trace (snd (entry' ns s))).
Proof.
  intros Htr.
  destruct (entry_events pd_parse pd_format abspath singleSampleCompass
              submitCompassTorque init_logger git_rev_parse cpu_count
              completion_order ns s) as (new & Ht & Hall).
  by rewrite Ht, Htr.
Qed.

(** X10. The version probe is not optional: when the [git] subprocess fails
    with anything but [CalledProcessError] (the executable is missing, say)
    the run ends with that exception before any mode is looked at, having
    called nothing; a [CalledProcessError] makes no difference to the
    run. *)
Theorem version_probe_failure_is_fatal (ns : Namespace) (s : State) :
  Qle 0 (a_lambda ns) -> Qle (a_lambda ns) 1 ->
  (forall e, git_rev_parse (flags_set ns (world s)) = Raise e ->
             e <> CalledProcessError ->
             entry' ns s
             = (Raise e, mkState (flags_set ns (world s)) (trace s))) /\
  (forall git',
     tolerated (git_rev_parse (flags_set ns (world s))) ->
     tolerated (git' (flags_set ns (world s))) ->
     entry' ns s = entry_with git' ns s).
Proof.
  intros H0 H1. split.
  - intros e Hgit Hne. unfold entry, bind.
    rewrite (parseArgs_ok ns s H0 H1), log_versions_run. cbn [world].
    rewrite Hgit. by destruct e.
  - intros git' Ht Ht'. unfold entry, bind.
    rewrite (parseArgs_ok ns s H0 H1).
    by rewrite !log_versions_tolerated.
Qed.

(** X11. Single-sample mode comes first: with [--single-sample] given, the
    queue, [--collect] and the number of processes make no difference to
    the run. *)
Theorem single_sample_takes_precedence (ns : Namespace) (s : State)
    (sample_index : Z) :
  a_single_sample ns = Some sample_index ->
  forall q c n, entry' (with_modes q c n ns) s = entry' ns s.
Proof.
  intros Hsingle q c n. unfold entry, bind.
  rewrite parseArgs_with_modes.
  destruct (parseArgs abspath ns s) as [[args|e] s'] eqn:Hp; [|done].
  apply parseArgs_inv in Hp as ->.
  destruct (log_versions git_rev_parse s') as [[[]|e] s'']; [|done].
  cbn [with_modes a_single_sample a_data a_model a_media a_temp_dir
       a_lambda]. by rewrite Hsingle.
Qed.

(** X12. Queue mode comes next: without [--single-sample] and with a queue
    given, [--collect] and the number of processes make no difference; the
    run makes at most one call, the submission, handing it the absolute
    paths of the matrix, the temporary and the output directory with the
    model, media, smoothing factor and queue, and does not collect.  When
    the smoothing factor is within bounds and the version probe passes, the
    submission is made and its outcome is the outcome of the run. *)
Theorem queue_mode_submits_once (ns : Namespace) (s : State)
    (queue : string) :
  a_single_sample ns = None ->
  a_torque_queue ns = Some queue ->
  let a := mkTorqueArgs (abspath (a_data ns)) (a_model ns)
             (Some (default "None" (a_media ns))) (abspath (a_temp_dir ns))
             (abspath (a_output_dir ns)) (a_lambda ns) (Some queue) in
  (forall c n, entry' (with_modes (Some queue) c n ns) s = entry' ns s) /\
  (exists new,
     trace (snd (entry' ns s)) = trace s ++ new /\
     (new = [] \/ new = [EvTorque a])) /\
  (Qle 0 (a_lambda ns) -> Qle (a_lambda ns) 1 ->
   tolerated (git_rev_parse (flags_set ns (world s))) ->
   trace (snd (entry' ns s)) = trace s ++ [EvTorque a] /\
   fst (entry' ns s)
   = fst (submitCompassTorque a (flags_set ns (world s))) /\
   world (snd (entry' ns s))
   = snd (submitCompassTorque a (flags_set ns (world s)))).
Proof.
  intros Hsingle Hqueue a. split; [|split].
  - intros c n. unfold entry, bind. rewrite parseArgs_with_modes.
    destruct (parseArgs abspath ns s) as [[args|e] s'] eqn:Hp; [|done].
    apply parseArgs_inv in Hp as ->.
    destruct (log_versions git_rev_parse s') as [[[]|e] s'']; [|done].
    cbn [with_modes a_single_sample a_torque_queue a_data a_model a_media
         a_temp_dir a_output_dir a_lambda]. by rewrite Hsingle, Hqueue.
  - unfold entry, bind.
    destruct (parseArgs_run abspath ns s)
      as (r & w' & Hp & _). rewrite Hp. destruct r as [args|e].
    2:{ exists []. cbn. rewrite app_nil_r. by split; [|left]. }
    apply parseArgs_inv in Hp as ->. rewrite log_versions_run.
    cbn [world]. destruct (git_rev_parse w') as [c|e].
    + cbn [a_single_sample a_torque_queue a_data a_model a_media a_temp_dir
           a_output_dir a_lambda]. rewrite Hsingle, Hqueue.
      unfold call_torque. cbn [world trace].
      destruct (submitCompassTorque _ w') as [r w''].
      exists [EvTorque a]. by split; [|right].
    + destruct e;
        try (exists []; cbn; rewrite app_nil_r; by split; [|left]).
      cbn [a_single_sample a_torque_queue a_data a_model a_media a_temp_dir
           a_output_dir a_lambda]. rewrite Hsingle, Hqueue.
      unfold call_torque. cbn [world trace].
      destruct (submitCompassTorque _ w') as [r w''].
      exists [EvTorque a]. by split; [|right].
  - intros H0 H1 Hgit. unfold entry, bind.
    rewrite (parseArgs_ok ns s H0 H1).
    rewrite (log_versions_tolerated git_rev_parse
               (mkState (flags_set ns (world s)) (trace s)) Hgit).
    cbn [parsed a_single_sample a_torque_queue a_data a_model a_media
         a_temp_dir a_output_dir a_lambda]. rewrite Hsingle, Hqueue.
    unfold call_torque. cbn [world trace]. fold a.
    by destruct (submitCompassTorque a (flags_set ns (world s))).
Qed.

(** X13. Collect mode: without [--single-sample] and without a queue,
    [--collect] makes the run nothing but a collection over the absolute
    paths: no pool is created, no solver is called, and the number of
    processes makes no difference. *)
Theorem collect_mode_only_collects (ns : Namespace) (s : State) :
  a_single_sample ns = None ->
  a_torque_queue ns = None ->
  a_collect ns = true ->
  trace (snd (entry' ns s)) = trace s /\
  (forall n, entry' (with_num_processes n ns) s = entry' ns s) /\
  (Qle 0 (a_lambda ns) -> Qle (a_lambda ns) 1 ->
   tolerated (git_rev_parse (flags_set ns (world s))) ->
   entry' ns s
   = collect (abspath (a_data ns)) (abspath (a_temp_dir ns))
       (abspath (a_output_dir ns))
       (mkState (flags_set ns (world s)) (trace s))).
Proof.
  intros Hsingle Hqueue Hcollect. split; [|split].
  - unfold entry, bind.
    destruct (parseArgs_run abspath ns s) as (r & w' & Hp & _).
    rewrite Hp. destruct r as [args|e]; [|done].
    apply parseArgs_inv in Hp as ->. rewrite log_versions_run.
    cbn [world].
    assert (forall st : State, trace st = trace s ->
              trace (snd (collect (abspath (a_data ns))
                            (abspath (a_temp_dir ns))
                            (abspath (a_output_dir ns)) st)) = trace s)
      as Hquiet.
    { intros st Hst.
      destruct (adds_only_collect pd_parse pd_format (fun _ => False)
                  (abspath (a_data ns)) (abspath (a_temp_dir ns))
                  (abspath (a_output_dir ns)) st) as (new & Ht & Hall).
      rewrite Ht, Hst. destruct new as [|ev new]; [by rewrite app_nil_r|].
      by apply Forall_inv in Hall. }
    cbn [a_single_sample a_torque_queue a_collect a_data a_temp_dir
         a_output_dir]. rewrite Hsingle, Hqueue, Hcollect.
    destruct (git_rev_parse w') as [c|e]; [by apply Hquiet|].
    destruct e; try done; by apply Hquiet.
  - intros n. unfold entry, bind.
    rewrite parseArgs_with_num_processes.
    destruct (parseArgs abspath ns s) as [[args|e] s'] eqn:Hp; [|done].
    apply parseArgs_inv in Hp as ->.
    destruct (log_versions git_rev_parse s') as [[[]|e] s'']; [|done].
    cbn [with_num_processes a_single_sample a_torque_queue a_collect
         a_data a_temp_dir a_output_dir].
    by rewrite Hsingle, Hqueue, Hcollect.
  - intros H0 H1 Hgit. unfold entry, bind.
    rewrite (parseArgs_ok ns s H0 H1).
    rewrite (log_versions_tolerated git_rev_parse
               (mkState (flags_set ns (world s)) (trace s)) Hgit).
    cbn [parsed a_single_sample a_torque_queue a_collect a_data a_temp_dir
         a_output_dir]. by rewrite Hsingle, Hqueue, Hcollect.
Qed.

(** *** Running locally *)

(** X14. Running locally needs one worker at least: a requested number of
    processes below 1 is passed on as it is, [Pool] refuses it with
    [ValueError], and the run ends there: no job has run and nothing is
    collected. *)
Theorem local_run_needs_a_worker (ns : Namespace) (s : State)
    (e : DataFrame) :
  a_single_sample ns = None -> a_torque_queue ns = None ->
  a_collect ns = false ->
  Qle 0 (a_lambda ns) -> Qle (a_lambda ns) 1 ->
  tolerated (git_rev_parse (flags_set ns (world s))) ->
  read_table_in pd_parse (world s) (abspath (a_data ns)) = Ok e ->
  (effective_num_processes cpu_count (a_num_processes ns) < 1)%Z ->
  entry' ns s = (Raise ValueError, mkState (flags_set ns (world s)) (trace s)).
Proof.
  intros Hsingle Hqueue Hcollect H0 H1 Hgit He Hn. unfold entry, bind.
  rewrite (parseArgs_ok ns s H0 H1).
  rewrite (log_versions_tolerated git_rev_parse
             (mkState (flags_set ns (world s)) (trace s)) Hgit).
  cbn [parsed a_single_sample a_torque_queue a_collect a_data a_model
       a_media a_temp_dir a_output_dir a_lambda a_num_processes].
  rewrite Hsingle, Hqueue, Hcollect, read_table_run. cbn [world].
  rewrite read_table_in_flags_set, He. unfold Pool.
  apply Z.ltb_lt in Hn. by rewrite Hn.
Qed.

(** X15. Running locally, a matrix that cannot be read ends the run with the
    reader's exception before the pool is created: no job has run. *)
Theorem local_run_unreadable_matrix (ns : Namespace) (s : State) (x : exc) :
  a_single_sample ns = None -> a_torque_queue ns = None ->
  a_collect ns = false ->
  Qle 0 (a_lambda ns) -> Qle (a_lambda ns) 1 ->
  tolerated (git_rev_parse (flags_set ns (world s))) ->
  read_table_in pd_parse (world s) (abspath (a_data ns)) = Raise x ->
  entry' ns s = (Raise x, mkState (flags_set ns (world s)) (trace s)).
Proof.
  intros Hsingle Hqueue Hcollect H0 H1 Hgit He. unfold entry, bind.
  rewrite (parseArgs_ok ns s H0 H1).
  rewrite (log_versions_tolerated git_rev_parse
             (mkState (flags_set ns (world s)) (trace s)) Hgit).
  cbn [parsed a_single_sample a_torque_queue a_collect a_data a_model
       a_media a_temp_dir a_output_dir a_lambda a_num_processes].
  rewrite Hsingle, Hqueue, Hcollect, read_table_run. cbn [world].
  by rewrite read_table_in_flags_set, He.
Qed.





End EntryEdges.

(** ** Further runs *)

Section FurtherRuns.

Import Demo.

Local Ltac computed :=
  match goal with
  | |- ?P => apply (bool_decide_eq_true_1 P); vm_compute; reflexivity
  end.


Lemma file_at_output_path_is_refused :
  collect file_at_out = (Raise FileExistsError, start file_at_out).
Proof.
  apply (collect_refuses_file_as_output_dir Tsv.parse Tsv.format "/m.tsv"
           "/tmp" "/out" (start file_at_out)); computed.
Defined.


Lemma partial_run_writes_the_joins :
  exists e,
    read_table_in Tsv.parse partial "/m.tsv" = Ok e /\
    0 < length (columns e) /\
    "/out" ∈ dirs (world (snd (collect partial))) /\
    forall k, exists merged,
      concat_axis1 (tables_of Tsv.parse partial e "/tmp" k) = Ok merged /\
      files (world (snd (collect partial)))
        !! os_path_join "/out" (file_name k)
      = Some (Tsv.format merged).
Proof.
  apply (collect_ok_writes_joins Tsv.parse Tsv.format "/m.tsv" "/tmp" "/out"
           (start partial) (snd (collect partial))).
  vm_compute. reflexivity.
Defined.

Lemma blocked_run_touches_no_other_file :
  trace (snd (collect blocked)) = [] /\
  forall p, (forall k, p <> os_path_join "/out" (file_name k)) ->
            files (world (snd (collect blocked))) !! p = files blocked !! p.
Proof.
  destruct (collect_touches_only_outputs Tsv.parse Tsv.format "/m.tsv"
              "/tmp" "/out" (start blocked) (snd (collect blocked))
              (fst (collect blocked)))
    as (Ht & _ & _ & _ & _ & _ & _ & Hfiles).
  - apply surjective_pairing.
  - split; [exact Ht | exact Hfiles].
Defined.




Lemma local_run_calls_carry_arguments :
  Forall (entry_event (fun p => p) units (namespace None None))
         (trace (snd (run solver_ok (namespace None None) partial))).
Proof.
  apply (calls_carry_parsed_arguments Tsv.parse Tsv.format (fun p => p)
           solver_ok torque_ok logger_ok git_ok units last_first
           (namespace None None) (start partial)).
  reflexivity.
Defined.

Lemma missing_git_ends_run :
  run_with git_missing (namespace None None) partial
  = (Raise FileNotFoundError,
     mkState (flags_set (namespace None None) partial) []).
Proof.
  destruct (version_probe_failure_is_fatal Tsv.parse Tsv.format
              (fun p => p) solver_ok torque_ok logger_ok git_missing units
              last_first (namespace None None) (start partial))
    as (Hfatal & _).
  - vm_compute. discriminate.
  - vm_compute. discriminate.
  - apply (Hfatal FileNotFoundError); [reflexivity | discriminate].
Defined.

Lemma single_sample_ignores_queue_and_collect :
  run solver_ok
    (with_modes (Some "batch") true (Some 2%Z) (namespace (Some 1%Z) None))
    partial
  = run solver_ok (namespace (Some 1%Z) None) partial.
Proof.
  apply (single_sample_takes_precedence Tsv.parse Tsv.format (fun p => p)
           solver_ok torque_ok logger_ok git_ok units last_first
           (namespace (Some 1%Z) None) (start partial) 1%Z).
  reflexivity.
Defined.

Lemma queued_run_submits_once :
  trace (snd (run solver_ok queued partial))
  = [EvTorque (mkTorqueArgs "/m.tsv" "RECON1_mat" (Some "None") "/tmp"
                 "/out" 0 (Some "batch"))].
Proof.
  destruct (queue_mode_submits_once Tsv.parse Tsv.format (fun p => p)
              solver_ok torque_ok logger_ok git_ok units last_first
              queued (start partial) "batch" eq_refl eq_refl)
    as (_ & _ & Hmade).
  destruct Hmade as (Ht & _).
  - vm_compute. discriminate.
  - vm_compute. discriminate.
  - exact I.
  - exact Ht.
Defined.

Lemma collecting_run_is_a_collection :
  run solver_ok collecting partial
  = collectCompassResults Tsv.parse Tsv.format "/m.tsv" "/tmp" "/out"
      (mkState (flags_set collecting partial) []).
Proof.
  destruct (collect_mode_only_collects Tsv.parse Tsv.format (fun p => p)
              solver_ok torque_ok logger_ok git_ok units last_first
              collecting (start partial) eq_refl eq_refl eq_refl)
    as (_ & _ & Hrun).
  apply Hrun.
  - vm_compute. discriminate.
  - vm_compute. discriminate.
  - exact I.
Defined.

Lemma no_worker_no_run :
  run solver_ok (namespace None (Some 0%Z)) partial
  = (Raise ValueError,
     mkState (flags_set (namespace None (Some 0%Z)) partial) []).
Proof.
  apply (local_run_needs_a_worker Tsv.parse Tsv.format (fun p => p)
           solver_ok torque_ok logger_ok git_ok units last_first
           (namespace None (Some 0%Z)) (start partial) expression).
  - reflexivity.
  - reflexivity.
  - reflexivity.
  - vm_compute. discriminate.
  - vm_compute. discriminate.
  - exact I.
  - vm_compute. reflexivity.
  - vm_compute. reflexivity.
Defined.

Lemma local_run_without_matrix :
  run solver_ok (namespace None None) no_matrix
  = (Raise FileNotFoundError,
     mkState (flags_set (namespace None None) no_matrix) []).
Proof.
  apply (local_run_unreadable_matrix Tsv.parse Tsv.format (fun p => p)
           solver_ok torque_ok logger_ok git_ok units last_first
           (namespace None None) (start no_matrix) FileNotFoundError).
  - reflexivity.
  - reflexivity.
  - reflexivity.
  - vm_compute. discriminate.
  - vm_compute. discriminate.
  - exact I.
  - vm_compute. reflexivity.
Defined.



Lemma file_at_work_directory_is_refused :
  second_job file_at_sample = (Raise FileExistsError, start file_at_sample).
Proof.
  apply (job_refuses_file_as_work_directory solver_ok logger_ok 1 "/m.tsv"
           "RECON1_mat" (Some "None") "/tmp" 0 (start file_at_sample));
    computed.
Defined.

Lemma directory_at_err_log_is_refused :
  exists s1,
    second_job dir_at_err_log = (Raise IsADirectoryError, s1) /\
    trace s1 = [] /\
    files (world s1) !! "/tmp/sample1/out.log" = Some "".
Proof.
  destruct (job_refuses_directory_as_capture_file solver_ok logger_ok 1
              "/m.tsv" "RECON1_mat" (Some "None") "/tmp" 0
              (start dir_at_err_log))
    as (s1 & Hjob & Ht & _ & _ & _ & _ & Hfiles).
  - computed.
  - right. computed.
  - exists s1. split; [exact Hjob|]. split; [exact Ht|].
    rewrite Hfiles by computed. vm_compute. reflexivity.
Defined.

Lemma first_two_work_directories_differ :
  sample_dir_of "/tmp" 0 <> sample_dir_of "/tmp" 1.
Proof.
  apply (sample_directories_differ "/tmp" 0 1). discriminate.
Defined.

End FurtherRuns.
